(** * autobahn.wamp.protocol: the session engine of a WAMP peer

    A shallow embedding of [autobahn/wamp/protocol.py] (classes [Peer] and
    [WampProtocol]) and the properties of its request ledgers, session
    state and error translation.

    Python objects are modelled as follows.
    - A dict is a [gmap]; request, publication and subscription ids are [Z].
    - A method that mutates [self] or raises is a computation in the monad
      [M], which threads the state and keeps every mutation done before an
      exception is raised, as Python does.
    - The collaborators that are not part of this module (Twisted's
      [Deferred], the transport, [util.id]) live in a [World]: a heap of
      deferreds addressed by index, the trace of the calls made to them,
      and the source of request ids.
    - Names the module uses without importing them ([Pattern],
      [ISubscriber]) are taken to resolve to the classes of the package. *)

From stdpp Require Import gmap strings list fin_maps.
From Stdlib Require Import ZArith.

Set Warnings "-register-all".

Local Open Scope Z_scope.
Local Open Scope string_scope.
Local Open Scope list_scope.

(** ** Python values *)

(** The dynamically typed values that reach the engine: topics, handlers,
    payload items, option objects. *)
Inductive PyVal : Type :=
| PNone
| PBool (b : bool)
| PInt (z : Z)                                   (* int and long *)
| PStr (s : string)                              (* str *)
| PUnicode (s : string)                          (* unicode *)
| PList (l : list PyVal)                         (* list or tuple *)
| PCallable (f : nat)                            (* a function object *)
| PPublishOptions (d : list (string * PyVal))    (* wamp.options.Publish, its __dict__ *)
| PSubscribeOptions (d : list (string * PyVal)). (* wamp.options.Subscribe, its __dict__ *)

(** [type(v) in (str, unicode)] *)
Definition is_string (v : PyVal) : bool :=
  match v with PStr _ | PUnicode _ => true | _ => false end.

(** [type(v) in [int, long]] *)
Definition is_integer (v : PyVal) : bool :=
  match v with PInt _ => true | _ => false end.

(** [callable(v)] *)
Definition callable (v : PyVal) : bool :=
  match v with PCallable _ => true | _ => false end.

(** Truth value of an optional sequence: [None] and the empty sequence are
    false. *)
Definition truthy_args (a : option (list PyVal)) : bool :=
  match a with Some (_ :: _) => true | _ => false end.

(** Truth value of an optional dict: [None] and the empty dict are false. *)
Definition truthy_kwargs (k : option (gmap string PyVal)) : bool :=
  match k with Some m => negb (bool_decide (m = ∅)) | None => false end.

(** ** Exceptions *)

(** A class object, identified by its qualified name. *)
Definition ecls := string.

Definition ApplicationError : ecls := "autobahn.wamp.exception.ApplicationError".

(** An exception instance.
    [AppError cls error args kwargs] is an instance of [ApplicationError]
    (or of the subclass [cls]): its [args] attribute is
    [(error,) + args] and its [kwargs] attribute is [kwargs].
    [OtherExc cls args kwargs] is an instance of any other class; an
    attribute it does not have is [None]. *)
Inductive Exc : Type :=
| AppError (cls : ecls) (error : string) (args : list PyVal)
           (kwargs : gmap string PyVal)
| OtherExc (cls : ecls) (args : option (list PyVal))
           (kwargs : option (gmap string PyVal)).

(** [exc.__class__] *)
Definition exc_class (exc : Exc) : ecls :=
  match exc with AppError c _ _ _ => c | OtherExc c _ _ => c end.

(** The exceptions that unwind a call of this module. *)
Inductive PyExn : Type :=
| AssertionError
| IndexError
| AttributeError (what : string)
| TransportLost
| ProtocolError (what : string) (request : Z)
| AlreadyCalledError
| ConstructorError                (* an Exception raised by a user constructor *)
| SendError (what : string).      (* whatever transport.send raised *)

Inductive Result (A : Type) : Type :=
| Ok (a : A)
| Raise (e : PyExn).
Arguments Ok {A} a.
Arguments Raise {A} e.

Global Instance Result_ret : MRet Result := fun _ a => Ok a.
Global Instance Result_bind : MBind Result := fun _ _ f r =>
  match r with Ok a => f a | Raise e => Raise e end.

(** [try: body  except Exception: pass], the value [None] standing for
    the assignment that did not happen. *)
Definition try_pass {A} (body : Result A) : option A :=
  match body with Ok a => Some a | Raise _ => None end.

(** ** URI patterns *)

(** Modelled from the spec: [autobahn.wamp.uri.Pattern] is not under src/.
    A pattern carries its literal URI, read by the method [uri()] and the
    attribute [_uri] alike, and the kind of target it was declared for. *)
Record Pattern := mkPattern { _uri : string; _target : nat }.

Definition URI_TARGET_HANDLER : nat := 2%nat.

Definition uri (p : Pattern) : string := _uri p.

(** ** Messages *)

(** Modelled from the spec: [autobahn.wamp.message] is not under src/. A
    message is a record of its fields, and building one does not fail. *)
Module message.

(** [message.Error]; [args] and [kwargs] are [None] when not given. *)
Record Error := mkError {
  request : Z;
  error : string;
  args : option (list PyVal);
  kwargs : option (gmap string PyVal)
}.

Inductive Message : Type :=
| Published (request publication : Z)
| Subscribed (request subscription : Z)
| Unsubscribed (request : Z)
| IsError (e : Error)
| Publish (request : Z) (topic : PyVal) (args : list PyVal)
          (kwargs : gmap string PyVal)
          (opts : option (list (string * PyVal)))
| Subscribe (request : Z) (topic : PyVal)
            (opts : option (list (string * PyVal)))
| Unsubscribe (request subscription : Z)
| Other (kind : string).

End message.

(** ** Peer: the error translator *)

Record Peer := mkPeer {
  _ecls_to_uri_pat : gmap ecls (list Pattern);
  _uri_to_ecls : gmap string ecls
}.

Definition Peer_init : Peer := mkPeer ∅ ∅.

(** What is known of a class object: the patterns it declares itself (the
    attribute [_wampuris], if it has one) and what calling it does, [None]
    when the constructor raises. *)
Record ClassInfo := mkClassInfo {
  _wampuris : option (list Pattern);
  cls_new : list PyVal -> gmap string PyVal -> option Exc
}.

Section Translator.

Variable classes : ecls -> ClassInfo.

(** Calling the class [c] with the positional arguments [a] and the
  keyword arguments [k]. *)
Definition construct (c : ecls) (a : list PyVal) (k : gmap string PyVal)
  : Result Exc :=
  match cls_new (classes c) a k with
  | Some e => Ok e
  | None => Raise ConstructorError
  end.

(** Modelled from the spec: [exception.ApplicationError] is not under
    src/. Its constructor takes the error URI, then the payload, and,
    as the source says where it calls it, never fails. *)
Definition ApplicationError_new (error : string) (a : list PyVal)
           (k : gmap string PyVal) : Result Exc :=
  Ok (AppError ApplicationError error a k).

Definition define (self : Peer) (exception : ecls) (error : option string)
  : Result unit * Peer :=
  match error with
  | None =>
      match _wampuris (classes exception) with
      | None => (Raise AssertionError, self)
      | Some pats =>
          let self1 :=
            mkPeer (<[exception := pats]> (_ecls_to_uri_pat self))
                   (_uri_to_ecls self) in
          match pats with
          | [] => (Raise IndexError, self1)
          | pat :: _ =>
              (Ok tt,
               mkPeer (_ecls_to_uri_pat self1)
                      (<[uri pat := exception]> (_uri_to_ecls self1)))
          end
      end
  | Some error =>
      match _wampuris (classes exception) with
      | Some _ => (Raise AssertionError, self)
      | None =>
          (Ok tt,
           mkPeer (<[exception := [mkPattern error URI_TARGET_HANDLER]]>
                     (_ecls_to_uri_pat self))
                  (<[error := exception]> (_uri_to_ecls self)))
      end
  end.

Definition _message_from_exception (self : Peer) (request : Z) (exc : Exc)
  : Result message.Error :=
  match exc with
  | AppError _ error args kwargs =>
      (* exc.args[0], exc.args[1:], exc.kwargs *)
      Ok (message.mkError request error (Some args) (Some kwargs))
  | OtherExc cls args kwargs =>
      error ← match _ecls_to_uri_pat self !! cls with
              | Some pats =>
                  match pats with
                  | pat :: _ => Ok (_uri pat)
                  | [] => Raise IndexError
                  end
              | None => Ok "wamp.error.runtime_error"
              end;
      match args with
      | Some a =>
          match kwargs with
          | Some k => Ok (message.mkError request error (Some a) (Some k))
          | None => Ok (message.mkError request error (Some a) None)
          end
      | None => Ok (message.mkError request error None None)
      end
  end.

Definition _exception_from_message (self : Peer) (msg : message.Error)
  : Result Exc :=
  let exc : option Exc :=
    match _uri_to_ecls self !! message.error msg with
    | Some ecls =>
        try_pass
          (if truthy_kwargs (message.kwargs msg) then
             if truthy_args (message.args msg) then
               construct ecls (default [] (message.args msg))
                         (default ∅ (message.kwargs msg))
             else
               construct ecls [] (default ∅ (message.kwargs msg))
           else
             if truthy_args (message.args msg) then
               construct ecls (default [] (message.args msg)) ∅
             else
               construct ecls [] ∅)
    | None => None
    end in
  match exc with
  | Some e => Ok e         (* an exception instance is true *)
  | None =>
      if truthy_kwargs (message.kwargs msg) then
        if truthy_args (message.args msg) then
          ApplicationError_new (message.error msg)
                               (default [] (message.args msg))
                               (default ∅ (message.kwargs msg))
        else
          ApplicationError_new (message.error msg) []
                               (default ∅ (message.kwargs msg))
      else
        if truthy_args (message.args msg) then
          ApplicationError_new (message.error msg)
                               (default [] (message.args msg)) ∅
        else
          ApplicationError_new (message.error msg) [] ∅
  end.

End Translator.

(** ** The collaborators: deferreds, transport, request ids *)

(** A [Deferred] object is the address of its state in the heap. *)
Definition Deferred := nat.

Inductive DResult : Type :=
| DValue (v : PyVal)      (* fired with callback *)
| DFailure (e : Exc).     (* fired with errback *)

Inductive DState : Type :=
| DPending
| DCalled (result : DResult).

(** A transport: what its [send] raises on a message, if anything. *)
Record Transport := mkTransport {
  send_raises : message.Message -> option PyExn
}.

(** The calls the engine makes to its collaborators. *)
Inductive Event : Type :=
| EvCallback (d : Deferred) (v : PyVal)
| EvErrback (d : Deferred) (e : Exc)
| EvSend (msg : message.Message).

Record World := mkWorld {
  deferreds : list DState;   (* the heap of Deferred objects *)
  trace : list Event;        (* the calls made so far, oldest first *)
  id_source : nat -> Z;      (* what the successive calls of util.id return *)
  id_count : nat             (* how many ids were drawn *)
}.

(** ** WampProtocol *)

Record WampProtocol := mkWampProtocol {
  peer : Peer;
  _transport : option Transport;
  _publish_reqs : gmap Z Deferred;
  _subscribe_reqs : gmap Z (Deferred * PyVal);
  _unsubscribe_reqs : gmap Z (Deferred * Z);
  _call_reqs : gmap Z Deferred;
  _register_reqs : gmap Z Deferred;
  _unregister_reqs : gmap Z Deferred;
  _subscriptions : gmap Z PyVal;
  _registrations : gmap Z PyVal
}.

Definition WampProtocol_init : WampProtocol :=
  mkWampProtocol Peer_init None ∅ ∅ ∅ ∅ ∅ ∅ ∅ ∅.

Definition set_transport (t : option Transport) (s : WampProtocol)
  : WampProtocol :=
  mkWampProtocol (peer s) t (_publish_reqs s) (_subscribe_reqs s)
    (_unsubscribe_reqs s) (_call_reqs s) (_register_reqs s)
    (_unregister_reqs s) (_subscriptions s) (_registrations s).

Definition set_publish_reqs (f : gmap Z Deferred -> gmap Z Deferred)
  (s : WampProtocol) : WampProtocol :=
  mkWampProtocol (peer s) (_transport s) (f (_publish_reqs s))
    (_subscribe_reqs s) (_unsubscribe_reqs s) (_call_reqs s)
    (_register_reqs s) (_unregister_reqs s) (_subscriptions s)
    (_registrations s).

Definition set_subscribe_reqs
  (f : gmap Z (Deferred * PyVal) -> gmap Z (Deferred * PyVal))
  (s : WampProtocol) : WampProtocol :=
  mkWampProtocol (peer s) (_transport s) (_publish_reqs s)
    (f (_subscribe_reqs s)) (_unsubscribe_reqs s) (_call_reqs s)
    (_register_reqs s) (_unregister_reqs s) (_subscriptions s)
    (_registrations s).

Definition set_unsubscribe_reqs
  (f : gmap Z (Deferred * Z) -> gmap Z (Deferred * Z))
  (s : WampProtocol) : WampProtocol :=
  mkWampProtocol (peer s) (_transport s) (_publish_reqs s)
    (_subscribe_reqs s) (f (_unsubscribe_reqs s)) (_call_reqs s)
    (_register_reqs s) (_unregister_reqs s) (_subscriptions s)
    (_registrations s).

Definition set_subscriptions (f : gmap Z PyVal -> gmap Z PyVal)
  (s : WampProtocol) : WampProtocol :=
  mkWampProtocol (peer s) (_transport s) (_publish_reqs s)
    (_subscribe_reqs s) (_unsubscribe_reqs s) (_call_reqs s)
    (_register_reqs s) (_unregister_reqs s) (f (_subscriptions s))
    (_registrations s).

(** ** The monad of the methods *)

Definition State : Type := WampProtocol * World.

Definition M (A : Type) : Type := State -> Result A * State.

Global Instance M_ret : MRet M := fun _ a st => (Ok a, st).

Global Instance M_bind : MBind M := fun _ _ f c st =>
  match c st with
  | (Ok a, st') => f a st'
  | (Raise e, st') => (Raise e, st')
  end.

Definition raise {A} (e : PyExn) : M A := fun st => (Raise e, st).

Definition lift {A} (r : Result A) : M A := fun st => (r, st).

Definition get_self : M WampProtocol := fun st => (Ok (fst st), st).

Definition modify_self (f : WampProtocol -> WampProtocol) : M unit :=
  fun st => (Ok tt, (f (fst st), snd st)).

Definition log (ev : Event) : M unit := fun st =>
  let w := snd st in
  (Ok tt, (fst st,
           mkWorld (deferreds w) (trace w ++ [ev]) (id_source w) (id_count w))).

(** [assert(b)] *)
Definition py_assert (b : bool) : M unit :=
  if b then mret tt else raise AssertionError.

(** [util.id()]: the next id of the source. The function is not under
    src/; nothing is assumed of the ids it returns. *)
Definition util_id : M Z := fun st =>
  let w := snd st in
  (Ok (id_source w (id_count w)),
   (fst st, mkWorld (deferreds w) (trace w) (id_source w) (S (id_count w)))).

(** [Deferred()]: a new object, not yet fired. *)
Definition Deferred_new : M Deferred := fun st =>
  let w := snd st in
  (Ok (length (deferreds w)),
   (fst st,
    mkWorld (deferreds w ++ [DPending]) (trace w) (id_source w) (id_count w))).

(** Firing a deferred: Twisted's [Deferred] fires once, and raises
    [AlreadyCalledError] when fired again. *)
Definition fire (d : Deferred) (r : DResult) : M unit := fun st =>
  let w := snd st in
  match deferreds w !! d with
  | Some DPending =>
      (Ok tt,
       (fst st,
        mkWorld (<[d := DCalled r]> (deferreds w)) (trace w) (id_source w)
                (id_count w)))
  | _ => (Raise AlreadyCalledError, st)
  end.

(** [d.callback(v)] *)
Definition callback (d : Deferred) (v : PyVal) : M unit :=
  log (EvCallback d v);; fire d (DValue v).

(** [d.errback(e)] *)
Definition errback (d : Deferred) (e : Exc) : M unit :=
  log (EvErrback d e);; fire d (DFailure e).

(** [transport.send(msg)] *)
Definition send (transport : Transport) (msg : message.Message) : M unit :=
  log (EvSend msg);;
  match send_raises transport msg with
  | Some e => raise e
  | None => mret tt
  end.

(** What the variable [d] of the Error branch of [onMessage] holds. *)
Inductive Popped : Type :=
| PoppedNone                                       (* d = None *)
| PoppedDeferred (d : Deferred)                    (* a Deferred *)
| PoppedTuple (d : Deferred) (subscription : Z).   (* a ledger entry, whole *)

(** [if d:] — a Deferred and a pair are true. *)
Definition truthy_popped (d : Popped) : bool :=
  match d with PoppedNone => false | _ => true end.

(** The message [publish] builds: an [options] keyword argument that is a
    [wamp.options.Publish] is popped and its attributes are passed on. *)
Definition publish_msg (request : Z) (topic : PyVal) (args : list PyVal)
  (kwargs : gmap string PyVal) : message.Message :=
  match kwargs !! "options" with
  | Some (PPublishOptions opts) =>
      message.Publish request topic args (delete "options" kwargs) (Some opts)
  | _ => message.Publish request topic args kwargs None
  end.

(** The message [subscribe] builds. *)
Definition subscribe_msg (request : Z) (topic options : PyVal)
  : message.Message :=
  match options with
  | PSubscribeOptions opts => message.Subscribe request topic (Some opts)
  | _ => message.Subscribe request topic None
  end.

(** [options is None or isinstance(options, wamp.options.Subscribe)] *)
Definition is_subscribe_options (options : PyVal) : bool :=
  match options with
  | PNone | PSubscribeOptions _ => true
  | _ => false
  end.

Section Engine.

Variable classes : ecls -> ClassInfo.

Definition onOpen (transport : Transport) : M unit :=
  modify_self (set_transport (Some transport)).

Definition onMessage (msg : message.Message) : M bool :=
  match msg with
  | message.Published request publication =>
      self ← get_self;
      match _publish_reqs self !! request with
      | Some d => callback d (PInt publication);; mret true
      | None =>
          raise (ProtocolError
                   "PUBLISHED received for non-pending request ID " request)
      end
  | message.Subscribed request subscription =>
      self ← get_self;
      match _subscribe_reqs self !! request with
      | Some (d, handler) =>
          modify_self (set_subscriptions (<[subscription := handler]>));;
          callback d (PInt subscription);;
          mret true
      | None =>
          raise (ProtocolError
                   "SUBSCRIBED received for non-pending request ID " request)
      end
  | message.Unsubscribed request =>
      self ← get_self;
      match _unsubscribe_reqs self !! request with
      | Some (d, subscription) =>
          (if bool_decide (is_Some (_subscriptions self !! subscription))
           then modify_self (set_subscriptions (delete subscription))
           else mret tt);;
          callback d PNone;;
          mret true
      | None =>
          raise (ProtocolError
                   "UNSUBSCRIBED received for non-pending request ID " request)
      end
  | message.IsError e =>
      let request := message.request e in
      self ← get_self;
      d ← match _publish_reqs self !! request with
          | Some d0 =>
              modify_self (set_publish_reqs (delete request));;
              mret (PoppedDeferred d0)
          | None =>
              match _subscribe_reqs self !! request with
              | Some (d0, _) =>
                  modify_self (set_subscribe_reqs (delete request));;
                  mret (PoppedDeferred d0)
              | None =>
                  match _unsubscribe_reqs self !! request with
                  | Some (d0, subscription) =>
                      modify_self (set_unsubscribe_reqs (delete request));;
                      mret (PoppedTuple d0 subscription)
                  | None => mret PoppedNone
                  end
              end
          end;
      (if truthy_popped d then
         match d with
         | PoppedDeferred d0 =>
             exc ← lift (_exception_from_message classes (peer self) e);
             errback d0 exc
         | _ =>
             raise (AttributeError "'tuple' object has no attribute 'errback'")
         end
       else
         raise (ProtocolError
                  "ERROR received for non-pending request ID " request));;
      mret true
  | _ => mret false
  end.

Definition onClose : M unit :=
  modify_self (set_transport None).

Definition publish (topic : PyVal) (args : list PyVal)
  (kwargs : gmap string PyVal) : M Deferred :=
  py_assert (is_string topic);;
  self ← get_self;
  match _transport self with
  | None => raise TransportLost
  | Some transport =>
      request ← util_id;
      d ← Deferred_new;
      modify_self (set_publish_reqs (<[request := d]>));;
      send transport (publish_msg request topic args kwargs);;
      mret d
  end.

Definition subscribe (handler topic options : PyVal) : M Deferred :=
  py_assert (callable handler);;
  py_assert (is_string topic);;
  py_assert (is_subscribe_options options);;
  self ← get_self;
  match _transport self with
  | None => raise TransportLost
  | Some transport =>
      request ← util_id;
      d ← Deferred_new;
      modify_self (set_subscribe_reqs (<[request := (d, handler)]>));;
      send transport (subscribe_msg request topic options);;
      mret d
  end.

Definition unsubscribe (subscription : PyVal) : M Deferred :=
  match subscription with
  | PInt sub =>
      self ← get_self;
      match _transport self with
      | None => raise TransportLost
      | Some transport =>
          request ← util_id;
          d ← Deferred_new;
          modify_self (set_unsubscribe_reqs (<[request := (d, sub)]>));;
          send transport (message.Unsubscribe request sub);;
          mret d
      end
  | _ => raise AssertionError      (* assert(type(subscription) in [int, long]) *)
  end.

End Engine.

(** ** Concrete classes, transports and worlds *)

(** A class that inherits the constructor of [Exception]: it takes
    positional arguments only and stores them in [args]. *)
Definition plain_class (name : ecls) : ClassInfo :=
  mkClassInfo None
    (fun a k =>
       if bool_decide (k = ∅) then Some (OtherExc name (Some a) None)
       else None).

Definition plain_classes : ecls -> ClassInfo := plain_class.

(** A transport whose [send] always returns. *)
Definition good_transport : Transport := mkTransport (fun _ => None).

(** A transport whose [send] raises on a Publish message and on no
    other. *)
Definition publish_failing_transport : Transport :=
  mkTransport
    (fun msg =>
       match msg with
       | message.Publish _ _ _ _ _ => Some (SendError "publish refused")
       | _ => None
       end).

(** A transport whose [send] always raises. *)
Definition bad_transport : Transport :=
  mkTransport (fun _ => Some (SendError "connection lost")).

(** A world with no deferred yet, where [util.id] counts from 7. *)
Definition world0 : World :=
  mkWorld [] [] (fun n => 7 + Z.of_nat n) 0.

(** A session that was opened on [good_transport]. *)
Definition open0 : State :=
  snd (onOpen good_transport (WampProtocol_init, world0)).

(** ** Which replies the ledgers expect *)

(** The four kinds of reply that carry a request id. *)
Definition is_reply (msg : message.Message) : bool :=
  match msg with
  | message.Published _ _ | message.Subscribed _ _
  | message.Unsubscribed _ | message.IsError _ => true
  | _ => false
  end.

(** The request of [msg] is in a ledger that [onMessage] consults for a
    message of its kind. *)
Definition pending_for (self : WampProtocol) (msg : message.Message) : Prop :=
  match msg with
  | message.Published r _ => is_Some (_publish_reqs self !! r)
  | message.Subscribed r _ => is_Some (_subscribe_reqs self !! r)
  | message.Unsubscribed r => is_Some (_unsubscribe_reqs self !! r)
  | message.IsError e =>
      is_Some (_publish_reqs self !! message.request e)
      ∨ is_Some (_subscribe_reqs self !! message.request e)
      ∨ is_Some (_unsubscribe_reqs self !! message.request e)
  | _ => False
  end.

(** ** Notions used in the statements *)

(** The state right after the ledger insertion of an operation: one id
    drawn, one deferred allocated. *)
Definition drawn (w : World) : Z := id_source w (id_count w).

Definition allocated (w : World) : Deferred := length (deferreds w).

(** The world after [d.callback(v)] on a deferred that had not fired. *)
Definition fired (d : Deferred) (r : DResult) (ev : Event) (w : World)
  : World :=
  mkWorld (<[d := DCalled r]> (deferreds w)) (trace w ++ [ev]) (id_source w)
          (id_count w).

(** The keyword payload that goes out for an exception that is not an
    ApplicationError: [kwargs] is read only when [args] exists. *)
Definition sent_kwargs (a : option (list PyVal))
  (k : option (gmap string PyVal)) : option (gmap string PyVal) :=
  match a with Some _ => k | None => None end.

(** The generic error built from a message: URI and payload as received,
    an absent payload being the empty one. *)
Definition generic_error (msg : message.Error) : Exc :=
  AppError ApplicationError (message.error msg)
           (default [] (message.args msg)) (default ∅ (message.kwargs msg)).

(** Two classes registered for one URI: the reverse map keeps the last. *)
Definition two_for_one : Peer :=
  snd (define plain_classes
         (snd (define plain_classes Peer_init "app.ErrorA"
                      (Some "com.example.failed")))
         "app.ErrorB" (Some "com.example.failed")).

(** The three success replies. *)
Definition is_success_reply (msg : message.Message) : bool :=
  match msg with
  | message.Published _ _ | message.Subscribed _ _
  | message.Unsubscribed _ => true
  | _ => false
  end.

(** Every class of the forward map has a first pattern. *)
Definition forward_nonempty (self : Peer) : Prop :=
  ∀ c pats, _ecls_to_uri_pat self !! c = Some pats → pats ≠ [].

(** Classes of three kinds: app.Declared declares its own pattern,
    app.Empty declares an empty list of patterns, the others are plain. *)
Definition mixed_classes (c : ecls) : ClassInfo :=
  if String.eqb c "app.Declared" then
    mkClassInfo (Some [mkPattern "com.example.declared" 1%nat])
                (cls_new (plain_class c))
  else if String.eqb c "app.Empty" then
    mkClassInfo (Some []) (cls_new (plain_class c))
  else plain_class c.

(** The world after an operation has drawn its id, allocated its deferred
    and called [send] on [msg]. *)
Definition after_send (msg : message.Message) (w : World) : World :=
  mkWorld (deferreds w ++ [DPending]) (trace w ++ [EvSend msg]) (id_source w)
          (S (id_count w)).

(** What an operation returns once [send] is over. *)
Definition send_result (transport : Transport) (msg : message.Message)
  (d : Deferred) : Result Deferred :=
  match send_raises transport msg with
  | Some e => Raise e
  | None => Ok d
  end.

(** The calls the transport and the application make on an engine. *)
Inductive Call : Type :=
| CallOnOpen (transport : Transport)
| CallOnMessage (msg : message.Message)
| CallOnClose
| CallPublish (topic : PyVal) (args : list PyVal) (kwargs : gmap string PyVal)
| CallSubscribe (handler topic options : PyVal)
| CallUnsubscribe (subscription : PyVal).

(** The state a call leaves, whether it returned or raised. *)
Definition step (classes : ecls -> ClassInfo) (c : Call) (st : State) : State :=
  match c with
  | CallOnOpen transport => snd (onOpen transport st)
  | CallOnMessage msg => snd (onMessage classes msg st)
  | CallOnClose => snd (onClose st)
  | CallPublish topic args kwargs => snd (publish topic args kwargs st)
  | CallSubscribe handler topic options =>
      snd (subscribe handler topic options st)
  | CallUnsubscribe subscription => snd (unsubscribe subscription st)
  end.

(** The state after a sequence of calls, each caller catching what its
    call raised. *)
Definition run_calls (classes : ecls -> ClassInfo) (cs : list Call)
  (st : State) : State :=
  foldl (fun st c => step classes c st) st cs.

(** Every deferred of a ledger is an object of the heap. *)
Definition ledgers_allocated (st : State) : Prop :=
  (∀ R d, _publish_reqs (fst st) !! R = Some d →
          (d < length (deferreds (snd st)))%nat)
  ∧ (∀ R d h, _subscribe_reqs (fst st) !! R = Some (d, h) →
              (d < length (deferreds (snd st)))%nat)
  ∧ (∀ R d s, _unsubscribe_reqs (fst st) !! R = Some (d, s) →
              (d < length (deferreds (snd st)))%nat).

(** Every handler the engine holds, pending or installed, is callable. *)
Definition handlers_callable (self : WampProtocol) : Prop :=
  (∀ R d h, _subscribe_reqs self !! R = Some (d, h) → callable h = true)
  ∧ (∀ S h, _subscriptions self !! S = Some h → callable h = true).

(** The three operations among the calls. *)
Definition operation (c : Call) : option (M Deferred) :=
  match c with
  | CallPublish topic args kwargs => Some (publish topic args kwargs)
  | CallSubscribe handler topic options =>
      Some (subscribe handler topic options)
  | CallUnsubscribe subscription => Some (unsubscribe subscription)
  | _ => None
  end.

(** No ledger entry holds the deferred [d]. *)
Definition unheld (self : WampProtocol) (d : Deferred) : Prop :=
  (∀ R, _publish_reqs self !! R ≠ Some d)
  ∧ (∀ R h, _subscribe_reqs self !! R ≠ Some (d, h))
  ∧ (∀ R s, _unsubscribe_reqs self !! R ≠ Some (d, s)).

(** Some ledger entry holds the deferred [d]. *)
Definition held (self : WampProtocol) (d : Deferred) : Prop :=
  (∃ R, _publish_reqs self !! R = Some d)
  ∨ (∃ R h, _subscribe_reqs self !! R = Some (d, h))
  ∨ (∃ R s, _unsubscribe_reqs self !! R = Some (d, s)).

(** A deferred of the heap that has not fired and that no ledger holds. *)
Definition orphan (st : State) (d : Deferred) : Prop :=
  deferreds (snd st) !! d = Some DPending ∧ unheld (fst st) d.

(** A world where [util.id] returns 7 at every call. *)
Definition world_same_id : World := mkWorld [] [] (fun _ => 7) 0.

(** ** Tactics *)

Ltac unfold_monad :=
  unfold mbind, mret, M_bind, M_ret, Result_bind, Result_ret, raise, lift,
    get_self, modify_self, py_assert, callback, errback, send, log, fire,
    util_id, Deferred_new in *.

Ltac run := repeat (progress (unfold_monad; simpl in *)).

(** ** Lookups *)

Lemma not_is_Some_None {A} (o : option A) : ¬ is_Some o → o = None.
Proof. destruct o; [intros H; exfalso; apply H; eauto | done]. Qed.

Lemma truthy_args_false (a : option (list PyVal)) :
  truthy_args a = false → default [] a = [].
Proof. by destruct a as [[|??]|]. Qed.

Lemma truthy_kwargs_false (k : option (gmap string PyVal)) :
  truthy_kwargs k = false → default ∅ k = ∅.
Proof.
  destruct k as [m|]; simpl; [|done].
  intros H. apply negb_false_iff, bool_decide_eq_true in H. done.
Qed.

(** ** Replies to requests that are not pending *)

(** C2: a Published, Subscribed, Unsubscribed or Error message whose
    request id is in no ledger consulted for its kind makes [onMessage]
    raise ProtocolError; the engine and the world are left as they were. *)
Theorem onMessage_not_pending classes (self : WampProtocol) (w : World)
  (msg : message.Message) :
  is_reply msg = true →
  ¬ pending_for self msg →
  ∃ what r,
    onMessage classes msg (self, w) = (Raise (ProtocolError what r), (self, w)).
Proof.
  intros Hreply Hnot.
  destruct msg as [r p|r s|r|e| | | |]; try discriminate; simpl in Hnot.
  - apply not_is_Some_None in Hnot. unfold onMessage. run.
    rewrite Hnot. eauto.
  - apply not_is_Some_None in Hnot. unfold onMessage. run.
    rewrite Hnot. eauto.
  - apply not_is_Some_None in Hnot. unfold onMessage. run.
    rewrite Hnot. eauto.
  - assert (_publish_reqs self !! message.request e = None) as H1
      by (apply not_is_Some_None; tauto).
    assert (_subscribe_reqs self !! message.request e = None) as H2
      by (apply not_is_Some_None; tauto).
    assert (_unsubscribe_reqs self !! message.request e = None) as H3
      by (apply not_is_Some_None; tauto).
    unfold onMessage. run. rewrite H1, H2, H3. simpl. eauto.
Qed.

Lemma onMessage_not_pending_witness :
  ∃ what r,
    onMessage plain_classes (message.IsError (message.mkError 3 "com.x" None None))
      open0
    = (Raise (ProtocolError what r), open0).
Proof.
  apply (onMessage_not_pending plain_classes (fst open0) (snd open0)
           (message.IsError (message.mkError 3 "com.x" None None))).
  - reflexivity.
  - simpl. intros [[? H]|[[? H]|[? H]]]; discriminate H.
Defined.

(** ** Operations on a closed session *)

(** C7: once [onClose] has cleared the transport, [publish], [subscribe]
    and [unsubscribe], called with arguments that pass their assertions,
    raise TransportLost and leave the engine and the world as they were:
    no id is drawn, no ledger entry is inserted, nothing is sent. *)
Theorem closed_session_raises_TransportLost (st : State)
  (topic : PyVal) (args : list PyVal) (kwargs : gmap string PyVal)
  (handler topic' options subscription : PyVal) :
  is_string topic = true →
  callable handler = true →
  is_string topic' = true →
  is_subscribe_options options = true →
  is_integer subscription = true →
  let closed := snd (onClose st) in
  publish topic args kwargs closed = (Raise TransportLost, closed)
  ∧ subscribe handler topic' options closed = (Raise TransportLost, closed)
  ∧ unsubscribe subscription closed = (Raise TransportLost, closed).
Proof.
  intros Ht Hh Ht' Ho Hs closed. subst closed.
  destruct st as [self w].
  unfold publish, subscribe, unsubscribe, onClose.
  rewrite Ht, Hh, Ht', Ho.
  destruct subscription; try discriminate.
  by run.
Qed.

Lemma closed_session_raises_TransportLost_witness :
  let closed := snd (onClose open0) in
  publish (PStr "com.example.topic") [PInt 1] ∅ closed
    = (Raise TransportLost, closed)
  ∧ subscribe (PCallable 0) (PUnicode "com.example.topic") PNone closed
    = (Raise TransportLost, closed)
  ∧ unsubscribe (PInt 12) closed = (Raise TransportLost, closed).
Proof.
  apply (closed_session_raises_TransportLost open0
           (PStr "com.example.topic") [PInt 1] ∅
           (PCallable 0) (PUnicode "com.example.topic") PNone (PInt 12));
    reflexivity.
Defined.

(** ** Insertion and send *)

(** C10: [publish], [subscribe] and [unsubscribe] insert their ledger entry
    before they call [transport.send]. For each operation on its own: when
    the [send] of its message raises, the exception leaves the operation,
    [send] has been called, and the entry is still in the ledger. *)
Theorem send_failure_leaves_entry (self : WampProtocol) (w : World)
  (transport : Transport) :
  _transport self = Some transport →
  (∀ topic args kwargs e,
      is_string topic = true →
      send_raises transport (publish_msg (drawn w) topic args kwargs)
      = Some e →
      ∃ self' w',
        publish topic args kwargs (self, w) = (Raise e, (self', w'))
        ∧ _publish_reqs self' !! drawn w = Some (allocated w)
        ∧ trace w'
          = trace w ++ [EvSend (publish_msg (drawn w) topic args kwargs)])
  ∧ (∀ handler topic options e,
      callable handler = true →
      is_string topic = true →
      is_subscribe_options options = true →
      send_raises transport (subscribe_msg (drawn w) topic options)
      = Some e →
      ∃ self' w',
        subscribe handler topic options (self, w) = (Raise e, (self', w'))
        ∧ _subscribe_reqs self' !! drawn w = Some (allocated w, handler)
        ∧ trace w'
          = trace w ++ [EvSend (subscribe_msg (drawn w) topic options)])
  ∧ (∀ subscription e,
      send_raises transport (message.Unsubscribe (drawn w) subscription)
      = Some e →
      ∃ self' w',
        unsubscribe (PInt subscription) (self, w) = (Raise e, (self', w'))
        ∧ _unsubscribe_reqs self' !! drawn w
          = Some (allocated w, subscription)
        ∧ trace w'
          = trace w
            ++ [EvSend (message.Unsubscribe (drawn w) subscription)]).
Proof.
  intros Htr. split; [|split].
  - intros topic args kwargs e Ht Hs.
    unfold publish, drawn, allocated in *.
    rewrite Ht. run. rewrite Htr. run. rewrite Hs.
    eexists _, _. split; [reflexivity|]. simpl.
    split; [apply lookup_insert_eq | reflexivity].
  - intros handler topic options e Hh Ht Ho Hs.
    unfold subscribe, drawn, allocated in *.
    rewrite Hh, Ht, Ho. run. rewrite Htr. run. rewrite Hs.
    eexists _, _. split; [reflexivity|]. simpl.
    split; [apply lookup_insert_eq | reflexivity].
  - intros subscription e Hs.
    unfold unsubscribe, drawn, allocated in *.
    run. rewrite Htr. run. rewrite Hs.
    eexists _, _. split; [reflexivity|]. simpl.
    split; [apply lookup_insert_eq | reflexivity].
Qed.

Lemma send_failure_leaves_entry_witness :
  let self := set_transport (Some publish_failing_transport)
                WampProtocol_init in
  (∃ self' w',
      publish (PStr "com.example.topic") [] ∅ (self, world0)
      = (Raise (SendError "publish refused"), (self', w'))
      ∧ _publish_reqs self' !! drawn world0 = Some (allocated world0)
      ∧ trace w' = trace world0
                   ++ [EvSend (publish_msg (drawn world0)
                                 (PStr "com.example.topic") [] ∅)])
  ∧ (∃ self' w',
      unsubscribe (PInt 5)
        (set_transport (Some bad_transport) WampProtocol_init, world0)
      = (Raise (SendError "connection lost"), (self', w'))
      ∧ _unsubscribe_reqs self' !! drawn world0 = Some (allocated world0, 5)
      ∧ trace w' = trace world0
                   ++ [EvSend (message.Unsubscribe (drawn world0) 5)]).
Proof.
  intros self. split.
  - apply (proj1 (send_failure_leaves_entry self world0
                    publish_failing_transport eq_refl)
             (PStr "com.example.topic") [] ∅ (SendError "publish refused"));
      reflexivity.
  - apply (proj2 (proj2 (send_failure_leaves_entry
                           (set_transport (Some bad_transport)
                              WampProtocol_init)
                           world0 bad_transport eq_refl))
             5 (SendError "connection lost")).
    reflexivity.
Defined.

(** ** The topic of publish *)

(** On an open session, [publish] with the empty string as topic passes
    the assertion: it draws the id 7, registers it, sends the Publish
    message and returns the deferred.
    The statement of C8 (a topic that is not a non-empty identifier fails
    before anything is sent) is false at this input. *)
Lemma publish_empty_topic_is_sent :
  ∃ self' w',
    publish (PStr "") [] ∅ open0 = (Ok 0%nat, (self', w'))
    ∧ _publish_reqs self' !! 7 = Some 0%nat
    ∧ trace w' = [EvSend (message.Publish 7 (PStr "") [] ∅ None)].
Proof. eexists _, _. split; [reflexivity|]. split; reflexivity. Qed.

(** C8, amended: on an open session [publish] checks the type of the topic
    only. A topic that is not a str or unicode raises AssertionError with
    the engine and the world untouched; every string topic, the empty one
    included, has a request id drawn, registered in the Publish ledger
    with a new deferred, and the Publish message handed to [send], whose
    return makes [publish] return the deferred. *)
Theorem publish_checks_topic_type (self : WampProtocol) (w : World)
  (transport : Transport) (topic : PyVal) (args : list PyVal)
  (kwargs : gmap string PyVal) :
  _transport self = Some transport →
  (is_string topic = false →
     publish topic args kwargs (self, w) = (Raise AssertionError, (self, w)))
  ∧ (is_string topic = true →
     ∃ r self' w',
       publish topic args kwargs (self, w) = (r, (self', w'))
       ∧ _publish_reqs self' = <[drawn w := allocated w]> (_publish_reqs self)
       ∧ deferreds w' = deferreds w ++ [DPending]
       ∧ id_count w' = S (id_count w)
       ∧ trace w'
         = trace w ++ [EvSend (publish_msg (drawn w) topic args kwargs)]
       ∧ r = match send_raises transport
                     (publish_msg (drawn w) topic args kwargs) with
             | Some e => Raise e
             | None => Ok (allocated w)
             end).
Proof.
  intros Htr. unfold publish, drawn, allocated. split; intros Ht; rewrite Ht.
  - reflexivity.
  - run. rewrite Htr. run.
    destruct (send_raises transport _) eqn:Hs; eexists _, _, _;
      (split; [reflexivity|]); simpl; repeat split; reflexivity.
Qed.

Lemma publish_checks_topic_type_witness :
  publish (PInt 3) [] ∅ open0 = (Raise AssertionError, open0)
  ∧ ∃ r self' w',
      publish (PUnicode "com.example.topic") [] ∅ open0 = (r, (self', w'))
      ∧ _publish_reqs self' = <[7 := 0%nat]> ∅
      ∧ trace w' = [EvSend (message.Publish 7 (PUnicode "com.example.topic")
                              [] ∅ None)]
      ∧ r = Ok 0%nat.
Proof.
  split.
  - apply (proj1 (publish_checks_topic_type (fst open0) (snd open0)
                    good_transport (PInt 3) [] ∅ eq_refl)).
    reflexivity.
  - destruct (proj2 (publish_checks_topic_type (fst open0) (snd open0)
                       good_transport (PUnicode "com.example.topic") [] ∅
                       eq_refl) eq_refl)
      as (r & self' & w' & H1 & H2 & _ & _ & H5 & H6).
    exists r, self', w'. repeat split; assumption.
Defined.

(** ** Success replies *)

Lemma onMessage_Published classes self w request publication d :
  _publish_reqs self !! request = Some d →
  deferreds w !! d = Some DPending →
  onMessage classes (message.Published request publication) (self, w)
  = (Ok true,
     (self, fired d (DValue (PInt publication))
                  (EvCallback d (PInt publication)) w)).
Proof.
  intros Hr Hd. unfold onMessage. run. rewrite Hr. run. by rewrite Hd.
Qed.

Lemma onMessage_Subscribed classes self w request subscription d handler :
  _subscribe_reqs self !! request = Some (d, handler) →
  deferreds w !! d = Some DPending →
  onMessage classes (message.Subscribed request subscription) (self, w)
  = (Ok true,
     (set_subscriptions (<[subscription := handler]>) self,
      fired d (DValue (PInt subscription))
            (EvCallback d (PInt subscription)) w)).
Proof.
  intros Hr Hd. unfold onMessage. run. rewrite Hr. run. by rewrite Hd.
Qed.

Lemma onMessage_Unsubscribed classes self w request subscription d :
  _unsubscribe_reqs self !! request = Some (d, subscription) →
  deferreds w !! d = Some DPending →
  onMessage classes (message.Unsubscribed request) (self, w)
  = (Ok true,
     ((if bool_decide (is_Some (_subscriptions self !! subscription))
       then set_subscriptions (delete subscription) self else self),
      fired d (DValue PNone) (EvCallback d PNone) w)).
Proof.
  intros Hr Hd. unfold onMessage. run. rewrite Hr. run.
  case_bool_decide; run; by rewrite Hd.
Qed.

Lemma lookup_allocated (l : list DState) : (l ++ [DPending]) !! length l = Some DPending.
Proof. by rewrite lookup_app_r, Nat.sub_diag. Qed.

Lemma fired_allocated (l : list DState) (s : DState) :
  <[length l := s]> (l ++ [DPending]) !! length l = Some s.
Proof. apply list_lookup_insert_eq. rewrite length_app. simpl. lia. Qed.

(** ** The life of a subscription *)

(** C3: on an open session, [subscribe(handler, topic)] registers the drawn
    request R with a new deferred and the handler; processing
    Subscribed(R, S) then maps S to that handler in the subscriptions table
    and fires the deferred with S. Likewise [unsubscribe(S)] registers R2,
    and processing Unsubscribed(R2) leaves S out of the table and fires the
    deferred of R2 with None; when S was not in the table the table is
    unchanged and the reply is processed all the same. *)
Theorem subscribe_lifecycle classes (self : WampProtocol) (w : World)
  (transport : Transport) (handler topic options : PyVal) (S : Z) :
  _transport self = Some transport →
  callable handler = true →
  is_string topic = true →
  is_subscribe_options options = true →
  (∃ r st1 st2,
      subscribe handler topic options (self, w) = (r, st1)
      ∧ _subscribe_reqs (fst st1) !! drawn w = Some (allocated w, handler)
      ∧ deferreds (snd st1) !! allocated w = Some DPending
      ∧ onMessage classes (message.Subscribed (drawn w) S) st1 = (Ok true, st2)
      ∧ _subscriptions (fst st2) !! S = Some handler
      ∧ deferreds (snd st2) !! allocated w = Some (DCalled (DValue (PInt S)))
      ∧ trace (snd st2) = trace (snd st1) ++ [EvCallback (allocated w) (PInt S)])
  ∧ (∃ r st1 st2,
      unsubscribe (PInt S) (self, w) = (r, st1)
      ∧ _unsubscribe_reqs (fst st1) !! drawn w = Some (allocated w, S)
      ∧ deferreds (snd st1) !! allocated w = Some DPending
      ∧ onMessage classes (message.Unsubscribed (drawn w)) st1 = (Ok true, st2)
      ∧ _subscriptions (fst st2) = delete S (_subscriptions self)
      ∧ _subscriptions (fst st2) !! S = None
      ∧ (_subscriptions self !! S = None →
         _subscriptions (fst st2) = _subscriptions self)
      ∧ deferreds (snd st2) !! allocated w = Some (DCalled (DValue PNone))
      ∧ trace (snd st2) = trace (snd st1) ++ [EvCallback (allocated w) PNone]).
Proof.
  intros Htr Hh Ht Ho. split.
  - destruct (subscribe handler topic options (self, w)) as [r st1] eqn:Hsub.
    assert (_subscribe_reqs (fst st1) !! drawn w = Some (allocated w, handler)
            ∧ deferreds (snd st1) = deferreds w ++ [DPending]) as [Hreq Hdef].
    { revert Hsub. unfold subscribe, drawn, allocated.
      rewrite Hh, Ht, Ho. run. rewrite Htr. run.
      destruct (send_raises transport _); intros [= <- <-]; simpl;
        (split; [apply lookup_insert_eq | reflexivity]). }
    assert (deferreds (snd st1) !! allocated w = Some DPending) as Hpend
      by (rewrite Hdef; apply lookup_allocated).
    destruct st1 as [self1 w1]; simpl in *.
    eexists r, _, _. split; [reflexivity|]. split; [exact Hreq|].
    split; [exact Hpend|].
    split; [apply (onMessage_Subscribed classes _ _ _ S _ _ Hreq Hpend)|].
    simpl. split; [apply lookup_insert_eq|].
    split; [|reflexivity].
    rewrite Hdef. apply fired_allocated.
  - destruct (unsubscribe (PInt S) (self, w)) as [r st1] eqn:Hun.
    assert (_unsubscribe_reqs (fst st1) !! drawn w = Some (allocated w, S)
            ∧ deferreds (snd st1) = deferreds w ++ [DPending]
            ∧ _subscriptions (fst st1) = _subscriptions self)
      as (Hreq & Hdef & Hsubs).
    { revert Hun. unfold unsubscribe, drawn, allocated.
      run. rewrite Htr. run.
      destruct (send_raises transport _); intros [= <- <-]; simpl;
        (split; [apply lookup_insert_eq | split; reflexivity]). }
    assert (deferreds (snd st1) !! allocated w = Some DPending) as Hpend
      by (rewrite Hdef; apply lookup_allocated).
    destruct st1 as [self1 w1]; simpl in *.
    eexists r, _, _. split; [reflexivity|]. split; [exact Hreq|].
    split; [exact Hpend|].
    split; [apply (onMessage_Unsubscribed classes _ _ _ _ _ Hreq Hpend)|].
    simpl.
    assert ((_subscriptions
               (if bool_decide (is_Some (_subscriptions self1 !! S))
                then set_subscriptions (delete S) self1 else self1))
            = delete S (_subscriptions self)) as Hdel.
    { rewrite <- Hsubs. case_bool_decide as Hin; [reflexivity|].
      symmetry. apply delete_id. by apply not_is_Some_None. }
    rewrite Hdel.
    split; [reflexivity|]. split; [apply lookup_delete_eq|].
    split; [apply delete_id|].
    split; [|reflexivity].
    rewrite Hdef. apply fired_allocated.
Qed.

Lemma subscribe_lifecycle_witness :
  (∃ r st1 st2,
      subscribe (PCallable 0) (PStr "com.example.topic") PNone open0 = (r, st1)
      ∧ onMessage plain_classes (message.Subscribed 7 42) st1 = (Ok true, st2)
      ∧ _subscriptions (fst st2) !! 42 = Some (PCallable 0)
      ∧ deferreds (snd st2) !! 0%nat = Some (DCalled (DValue (PInt 42))))
  ∧ (∃ r st1 st2,
      unsubscribe (PInt 42) open0 = (r, st1)
      ∧ onMessage plain_classes (message.Unsubscribed 7) st1 = (Ok true, st2)
      ∧ _subscriptions (fst st2) !! 42 = None
      ∧ deferreds (snd st2) !! 0%nat = Some (DCalled (DValue PNone))).
Proof.
  destruct (subscribe_lifecycle plain_classes (fst open0) (snd open0)
              good_transport (PCallable 0) (PStr "com.example.topic") PNone 42
              eq_refl eq_refl eq_refl eq_refl) as [Hs Hu].
  split.
  - destruct Hs as (r & st1 & st2 & H1 & _ & _ & H4 & H5 & H6 & _).
    exists r, st1, st2. repeat split; assumption.
  - destruct Hu as (r & st1 & st2 & H1 & _ & _ & H4 & _ & H6 & _ & H8 & _).
    exists r, st1, st2. repeat split; assumption.
Defined.

(** ** The error translator *)

(** [_exception_from_message] as one equation: the four-way choice of the
    call syntax does not matter, an absent payload is an empty one. *)
Lemma exception_from_message_eq classes (self : Peer) (msg : message.Error) :
  _exception_from_message classes self msg
  = Ok match _uri_to_ecls self !! message.error msg with
       | Some c =>
           match cls_new (classes c) (default [] (message.args msg))
                         (default ∅ (message.kwargs msg)) with
           | Some e => e
           | None => generic_error msg
           end
       | None => generic_error msg
       end.
Proof.
  unfold _exception_from_message, generic_error, ApplicationError_new,
    construct, try_pass.
  destruct (truthy_kwargs (message.kwargs msg)) eqn:Hk;
    destruct (truthy_args (message.args msg)) eqn:Ha;
    try rewrite (truthy_kwargs_false _ Hk);
    try rewrite (truthy_args_false _ Ha);
    destruct (_uri_to_ecls self !! message.error msg) as [c|];
    try reflexivity;
    destruct (cls_new (classes c) _ _); reflexivity.
Qed.

(** C5: [_exception_from_message] returns an exception for every Error
    message and never raises. When the URI is mapped to a class, the class
    is called with the payload of the message and what it builds is
    returned; when the URI is not mapped, or when that call raises, the
    result is the generic ApplicationError that carries the URI and the
    payload of the message. *)
Theorem exception_from_message_total classes (self : Peer)
  (msg : message.Error) :
  ∃ exc,
    _exception_from_message classes self msg = Ok exc
    ∧ (_uri_to_ecls self !! message.error msg = None →
       exc = generic_error msg)
    ∧ (∀ c, _uri_to_ecls self !! message.error msg = Some c →
            construct classes c (default [] (message.args msg))
                      (default ∅ (message.kwargs msg))
            = Raise ConstructorError →
            exc = generic_error msg)
    ∧ (∀ c e, _uri_to_ecls self !! message.error msg = Some c →
              construct classes c (default [] (message.args msg))
                        (default ∅ (message.kwargs msg)) = Ok e →
              exc = e).
Proof.
  eexists. split; [apply exception_from_message_eq|].
  unfold construct. repeat split.
  - by intros ->.
  - intros c ->. by destruct (cls_new _ _ _).
  - intros c e ->. destruct (cls_new _ _ _); by intros [= ->].
Qed.

Lemma exception_from_message_total_witness :
  let self := snd (define plain_classes Peer_init "MyError"
                          (Some "com.example.foo")) in
  ∃ e1 e2 e3,
    _exception_from_message plain_classes self
      (message.mkError 1 "com.example.foo" (Some [PInt 1; PInt 2]) (Some ∅))
    = Ok e1
    ∧ e1 = OtherExc "MyError" (Some [PInt 1; PInt 2]) None
    ∧ _exception_from_message plain_classes self
        (message.mkError 1 "com.example.foo" None
           (Some (<["code" := PInt 5]> ∅)))
      = Ok e2
    ∧ e2 = AppError ApplicationError "com.example.foo" []
                    (<["code" := PInt 5]> ∅)
    ∧ _exception_from_message plain_classes self
        (message.mkError 1 "com.example.bar" (Some [PInt 1]) None)
      = Ok e3
    ∧ e3 = AppError ApplicationError "com.example.bar" [PInt 1] ∅.
Proof.
  intros self.
  destruct (exception_from_message_total plain_classes self
              (message.mkError 1 "com.example.foo" (Some [PInt 1; PInt 2])
                 (Some ∅))) as (e1 & H1 & _ & _ & H1c).
  destruct (exception_from_message_total plain_classes self
              (message.mkError 1 "com.example.foo" None
                 (Some (<["code" := PInt 5]> ∅)))) as (e2 & H2 & _ & H2b & _).
  destruct (exception_from_message_total plain_classes self
              (message.mkError 1 "com.example.bar" (Some [PInt 1]) None))
    as (e3 & H3 & H3a & _).
  exists e1, e2, e3.
  split; [exact H1|]. split; [exact (H1c "MyError" _ eq_refl eq_refl)|].
  split; [exact H2|]. split; [exact (H2b "MyError" eq_refl eq_refl)|].
  split; [exact H3|]. exact (H3a eq_refl).
Defined.

(** A class that declares an empty list of patterns and is defined without
    a URI is left in the forward map with that empty list, [define] raising
    IndexError after the assignment; for an exception of the class that is
    not an ApplicationError, [_message_from_exception] then raises
    IndexError and builds no message.
    The statement of C6 (every exception gives an Error message) is false
    at this input. *)
Lemma message_from_exception_raises :
  ∃ self,
    define mixed_classes Peer_init "app.Empty" None = (Raise IndexError, self)
    ∧ _ecls_to_uri_pat self !! "app.Empty" = Some []
    ∧ _message_from_exception self 1 (OtherExc "app.Empty" (Some []) None)
      = Raise IndexError.
Proof. eexists. split; [reflexivity|]. split; reflexivity. Qed.

(** C6, amended: the Error message [_message_from_exception] builds for
    request r, when the class of the exception, if it is in the forward
    map, has a first pattern there.
    For an ApplicationError it carries the URI of the exception, the rest
    of its positional arguments and its keyword arguments. For another
    exception the URI is that of the first pattern registered for its
    class, or wamp.error.runtime_error when the class is not registered,
    and the payload is what the exception has: nothing without [args],
    [args] alone without [kwargs], both otherwise. *)
Theorem message_from_exception_uri (self : Peer) (r : Z) :
  (∀ cls error a k,
      _message_from_exception self r (AppError cls error a k)
      = Ok (message.mkError r error (Some a) (Some k)))
  ∧ (∀ cls a k,
      (∀ pat pats,
          _ecls_to_uri_pat self !! cls = Some (pat :: pats) →
          ∃ msg, _message_from_exception self r (OtherExc cls a k) = Ok msg
                 ∧ message.request msg = r
                 ∧ message.error msg = _uri pat
                 ∧ message.args msg = a
                 ∧ message.kwargs msg = sent_kwargs a k)
      ∧ (_ecls_to_uri_pat self !! cls = None →
          ∃ msg, _message_from_exception self r (OtherExc cls a k) = Ok msg
                 ∧ message.request msg = r
                 ∧ message.error msg = "wamp.error.runtime_error"
                 ∧ message.args msg = a
                 ∧ message.kwargs msg = sent_kwargs a k)).
Proof.
  split; [reflexivity|].
  intros cls a k. split.
  - intros pat pats H. unfold _message_from_exception. rewrite H. simpl.
    destruct a as [a|]; [destruct k as [k|]|]; eexists; by repeat split.
  - intros H. unfold _message_from_exception. rewrite H. simpl.
    destruct a as [a|]; [destruct k as [k|]|]; eexists; by repeat split.
Qed.

Lemma message_from_exception_uri_witness :
  let self := snd (define plain_classes Peer_init "MyError"
                          (Some "com.example.foo")) in
  (∃ msg, _message_from_exception self 9
            (OtherExc "MyError" (Some [PInt 1; PInt 2]) None) = Ok msg
          ∧ message.error msg = "com.example.foo"
          ∧ message.args msg = Some [PInt 1; PInt 2]
          ∧ message.kwargs msg = None)
  ∧ (∃ msg, _message_from_exception self 9
              (OtherExc "KeyError" (Some [PStr "k"]) None) = Ok msg
            ∧ message.error msg = "wamp.error.runtime_error"
            ∧ message.args msg = Some [PStr "k"]).
Proof.
  intros self.
  destruct (message_from_exception_uri self 9) as [_ H]. split.
  - destruct (proj1 (H "MyError" (Some [PInt 1; PInt 2]) None)
                (mkPattern "com.example.foo" URI_TARGET_HANDLER) [] eq_refl)
      as (msg & H1 & _ & H3 & H4 & H5).
    exists msg. repeat split; assumption.
  - destruct (proj2 (H "KeyError" (Some [PStr "k"]) None) eq_refl)
      as (msg & H1 & _ & H3 & H4 & _).
    exists msg. repeat split; assumption.
Defined.

(** ** Round trip of the error translation *)

(** With the classes ErrorA and ErrorB both registered by [define] for
    com.example.failed, an ErrorA whose payload its own constructor
    rebuilds goes out under that URI and comes back as an ErrorB.
    The statement of C4 (the round trip gives the same class) is false at
    this input. *)
Lemma round_trip_changes_class :
  let E := OtherExc "app.ErrorA" (Some [PInt 1; PInt 2]) None in
  _ecls_to_uri_pat two_for_one !! "app.ErrorA"
  = Some [mkPattern "com.example.failed" URI_TARGET_HANDLER]
  ∧ cls_new (plain_classes "app.ErrorA") [PInt 1; PInt 2] ∅ = Some E
  ∧ ∃ msg E',
      _message_from_exception two_for_one 1 E = Ok msg
      ∧ _exception_from_message plain_classes two_for_one msg = Ok E'
      ∧ E' = OtherExc "app.ErrorB" (Some [PInt 1; PInt 2]) None
      ∧ exc_class E' ≠ exc_class E.
Proof.
  intros E. split; [reflexivity|]. split; [reflexivity|].
  eexists _, _. split; [reflexivity|]. split; [reflexivity|].
  split; [reflexivity|]. discriminate.
Qed.

(** C4, amended: let E be an exception whose class is registered, let U
    be the URI E goes out under (the URI of the first pattern of its class,
    or its own URI when E is an ApplicationError), let the reverse map send
    U to the class of E, and let the constructor of that class rebuild E
    from the positional and keyword payload E carries. Then
    [_message_from_exception] gives a message for E and
    [_exception_from_message] gives E back from it. *)
Theorem error_round_trip classes (self : Peer) (r : Z) :
  (∀ cls a k pat pats,
      _ecls_to_uri_pat self !! cls = Some (pat :: pats) →
      _uri_to_ecls self !! _uri pat = Some cls →
      cls_new (classes cls) (default [] a) (default ∅ (sent_kwargs a k))
      = Some (OtherExc cls a k) →
      ∃ msg,
        _message_from_exception self r (OtherExc cls a k) = Ok msg
        ∧ _exception_from_message classes self msg = Ok (OtherExc cls a k))
  ∧ (∀ cls U a k,
      _uri_to_ecls self !! U = Some cls →
      cls_new (classes cls) a k = Some (AppError cls U a k) →
      ∃ msg,
        _message_from_exception self r (AppError cls U a k) = Ok msg
        ∧ _exception_from_message classes self msg = Ok (AppError cls U a k)).
Proof.
  split.
  - intros cls a k pat pats Hfwd Hrev Hnew.
    exists (message.mkError r (_uri pat) a (sent_kwargs a k)). split.
    + unfold _message_from_exception. rewrite Hfwd. simpl.
      destruct a; [by destruct k | done].
    + rewrite exception_from_message_eq. simpl. by rewrite Hrev, Hnew.
  - intros cls U a k Hrev Hnew.
    exists (message.mkError r U (Some a) (Some k)). split; [done|].
    rewrite exception_from_message_eq. simpl. by rewrite Hrev, Hnew.
Qed.

Lemma error_round_trip_witness :
  let self := snd (define plain_classes Peer_init "MyError"
                          (Some "com.example.foo")) in
  let E := OtherExc "MyError" (Some [PInt 1; PInt 2]) None in
  ∃ msg,
    _message_from_exception self 9 E = Ok msg
    ∧ _exception_from_message plain_classes self msg = Ok E.
Proof.
  intros self E.
  apply (proj1 (error_round_trip plain_classes self 9) "MyError"
           (Some [PInt 1; PInt 2]) None
           (mkPattern "com.example.foo" URI_TARGET_HANDLER) []);
    reflexivity.
Defined.

(** ** What a reply does to the ledgers *)

(** A success reply never changes a ledger, whatever comes of it. *)
Lemma success_reply_keeps_ledgers classes (msg : message.Message)
  (st st' : State) (r : Result bool) :
  is_success_reply msg = true →
  onMessage classes msg st = (r, st') →
  _publish_reqs (fst st') = _publish_reqs (fst st)
  ∧ _subscribe_reqs (fst st') = _subscribe_reqs (fst st)
  ∧ _unsubscribe_reqs (fst st') = _unsubscribe_reqs (fst st).
Proof.
  destruct st as [self w].
  destruct msg as [q p|q s|q|e| | | |]; try discriminate; intros _;
    unfold onMessage; run.
  - destruct (_publish_reqs self !! q) as [d|]; run;
      [destruct (deferreds w !! d) as [[|?]|]|]; intros [= <- <-]; done.
  - destruct (_subscribe_reqs self !! q) as [[d h]|]; run;
      [destruct (deferreds w !! d) as [[|?]|]|]; intros [= <- <-]; done.
  - destruct (_unsubscribe_reqs self !! q) as [[d s]|]; run;
      [case_bool_decide; run;
       destruct (deferreds w !! d) as [[|?]|]|]; intros [= <- <-]; done.
Qed.

(** An Error reply for a request of the Publish ledger pops the entry and
    calls errback on its deferred with the translated exception; a
    deferred that had fired raises AlreadyCalledError there. *)
Lemma onMessage_Error_publish classes self w (e : message.Error) d :
  _publish_reqs self !! message.request e = Some d →
  ∃ exc r w',
    _exception_from_message classes (peer self) e = Ok exc
    ∧ onMessage classes (message.IsError e) (self, w)
      = (r, (set_publish_reqs (delete (message.request e)) self, w'))
    ∧ trace w' = trace w ++ [EvErrback d exc]
    ∧ r = match deferreds w !! d with
          | Some DPending => Ok true
          | _ => Raise AlreadyCalledError
          end.
Proof.
  intros Hr. unfold onMessage. run. rewrite Hr. run.
  rewrite exception_from_message_eq. run.
  destruct (deferreds w !! d) as [[|?]|]; eexists _, _, _;
    (split; [reflexivity|]); (split; [reflexivity|]); split; reflexivity.
Qed.

(** An Error reply for a request of the Subscribe ledger, likewise. *)
Lemma onMessage_Error_subscribe classes self w (e : message.Error) d h :
  _publish_reqs self !! message.request e = None →
  _subscribe_reqs self !! message.request e = Some (d, h) →
  ∃ exc r w',
    _exception_from_message classes (peer self) e = Ok exc
    ∧ onMessage classes (message.IsError e) (self, w)
      = (r, (set_subscribe_reqs (delete (message.request e)) self, w'))
    ∧ trace w' = trace w ++ [EvErrback d exc]
    ∧ r = match deferreds w !! d with
          | Some DPending => Ok true
          | _ => Raise AlreadyCalledError
          end.
Proof.
  intros Hp Hr. unfold onMessage. run. rewrite Hp, Hr. run.
  rewrite exception_from_message_eq. run.
  destruct (deferreds w !! d) as [[|?]|]; eexists _, _, _;
    (split; [reflexivity|]); (split; [reflexivity|]); split; reflexivity.
Qed.

(** An Error reply for a request of the Unsubscribe ledger pops the entry,
    then fails on the pair it popped: no errback is called. *)
Lemma onMessage_Error_unsubscribe classes self w (e : message.Error) d s :
  _publish_reqs self !! message.request e = None →
  _subscribe_reqs self !! message.request e = None →
  _unsubscribe_reqs self !! message.request e = Some (d, s) →
  onMessage classes (message.IsError e) (self, w)
  = (Raise (AttributeError "'tuple' object has no attribute 'errback'"),
     (set_unsubscribe_reqs (delete (message.request e)) self, w)).
Proof.
  intros Hp Hs Hr. unfold onMessage. run. rewrite Hp, Hs, Hr. by run.
Qed.

(** A success reply for a request whose deferred has fired fires it again:
    AlreadyCalledError, not ProtocolError, and the ledgers as they were. *)
Lemma onMessage_Published_again classes self w request publication d res :
  _publish_reqs self !! request = Some d →
  deferreds w !! d = Some (DCalled res) →
  ∃ w',
    onMessage classes (message.Published request publication) (self, w)
    = (Raise AlreadyCalledError, (self, w'))
    ∧ deferreds w' = deferreds w.
Proof.
  intros Hr Hd. unfold onMessage. run. rewrite Hr. run. rewrite Hd.
  by eexists.
Qed.

(** C1, the code at a failing input: [publish] registers request 7, the
    reply Published(7, 100) is processed and fires the deferred, and
    request 7 is still in the Publish ledger afterwards. *)
Theorem Published_leaves_entry :
  ∃ st1 st2,
    publish (PStr "com.example.topic") [] ∅ open0 = (Ok 0%nat, st1)
    ∧ _publish_reqs (fst st1) !! 7 = Some 0%nat
    ∧ onMessage plain_classes (message.Published 7 100) st1 = (Ok true, st2)
    ∧ deferreds (snd st2) !! 0%nat = Some (DCalled (DValue (PInt 100)))
    ∧ _publish_reqs (fst st2) !! 7 = Some 0%nat.
Proof. eexists _, _. repeat split; reflexivity. Qed.

(** C9, the code at a failing input: [unsubscribe(5)] registers request 7
    and Unsubscribed(7) is processed, the entry staying in the ledger; the
    Error message for request 7 that follows pops the entry and raises
    AttributeError: errback is not called, the trace ends with the
    callback of the success reply. *)
Theorem Error_after_Unsubscribed_raises :
  ∃ st1 st2 st3,
    unsubscribe (PInt 5) open0 = (Ok 0%nat, st1)
    ∧ onMessage plain_classes (message.Unsubscribed 7) st1 = (Ok true, st2)
    ∧ _unsubscribe_reqs (fst st2) !! 7 = Some (0%nat, 5)
    ∧ onMessage plain_classes
        (message.IsError
           (message.mkError 7 "wamp.error.no_such_subscription" None None))
        st2
      = (Raise (AttributeError "'tuple' object has no attribute 'errback'"),
         st3)
    ∧ _unsubscribe_reqs (fst st3) !! 7 = None
    ∧ trace (snd st3)
      = [EvSend (message.Unsubscribe 7 5); EvCallback 0%nat PNone].
Proof. eexists _, _, _. repeat split; reflexivity. Qed.

(** ** Registering error classes *)

(** What a [define] that returns has done to the two maps. *)
Lemma define_Ok classes (self self' : Peer) (c : ecls) (error : option string) :
  define classes self c error = (Ok tt, self') →
  ∃ pat pats,
    _ecls_to_uri_pat self' = <[c := pat :: pats]> (_ecls_to_uri_pat self)
    ∧ _uri_to_ecls self' = <[_uri pat := c]> (_uri_to_ecls self)
    ∧ match error with
      | Some u => _wampuris (classes c) = None
                  ∧ pat = mkPattern u URI_TARGET_HANDLER ∧ pats = []
      | None => _wampuris (classes c) = Some (pat :: pats)
      end.
Proof.
  unfold define. destruct error as [u|].
  - destruct (_wampuris (classes c)) as [dpats|] eqn:Hw; [discriminate|].
    intros [= <-]. by eexists _, _.
  - destruct (_wampuris (classes c)) as [[|pat pats]|] eqn:Hw;
      try discriminate.
    intros [= <-]. by eexists pat, pats.
Qed.

(** X1: after a [define] that returns, the registered URI (the one given,
    or that of the first pattern the class declares) is mapped back to the
    class, and every exception of the class that is not an
    ApplicationError is sent under that URI with the payload it has. *)
Theorem define_registers classes (self self' : Peer) (c : ecls)
  (error : option string) :
  define classes self c error = (Ok tt, self') →
  ∃ U,
    match error with
    | Some u => U = u
    | None => ∃ pat pats,
        _wampuris (classes c) = Some (pat :: pats) ∧ U = _uri pat
    end
    ∧ _uri_to_ecls self' !! U = Some c
    ∧ ∀ r a k,
        _message_from_exception self' r (OtherExc c a k)
        = Ok (message.mkError r U a (sent_kwargs a k)).
Proof.
  intros H. destruct (define_Ok _ _ _ _ _ H) as (pat & pats & Hf & Hr & He).
  exists (_uri pat). split; [|split].
  - destruct error as [u|].
    + by destruct He as (_ & -> & _).
    + by exists pat, pats.
  - rewrite Hr. apply lookup_insert_eq.
  - intros r a k. unfold _message_from_exception.
    rewrite Hf, lookup_insert_eq. simpl.
    destruct a; [by destruct k | done].
Qed.

Lemma define_registers_witness :
  ∃ U,
    U = "com.example.declared"
    ∧ _uri_to_ecls (snd (define mixed_classes Peer_init "app.Declared" None))
        !! U = Some "app.Declared"
    ∧ _message_from_exception
        (snd (define mixed_classes Peer_init "app.Declared" None)) 4
        (OtherExc "app.Declared" (Some [PInt 1]) None)
      = Ok (message.mkError 4 U (Some [PInt 1]) None).
Proof.
  destruct (define_registers mixed_classes Peer_init
              (snd (define mixed_classes Peer_init "app.Declared" None))
              "app.Declared" None eq_refl)
    as (U & (pat & pats & Hw & HU) & Hrev & Hmsg).
  exists U. split.
  - injection Hw as <- _. exact HU.
  - split; [exact Hrev | apply Hmsg].
Defined.

(** X2: after a [define] that returns, an exception of the class that is
    not an ApplicationError and that the constructor of the class rebuilds
    from its payload survives the round trip through
    [_message_from_exception] and [_exception_from_message]. *)
Theorem define_round_trip classes (self self' : Peer) (c : ecls)
  (error : option string) (r : Z) (a : option (list PyVal))
  (k : option (gmap string PyVal)) :
  define classes self c error = (Ok tt, self') →
  cls_new (classes c) (default [] a) (default ∅ (sent_kwargs a k))
  = Some (OtherExc c a k) →
  ∃ msg,
    _message_from_exception self' r (OtherExc c a k) = Ok msg
    ∧ _exception_from_message classes self' msg = Ok (OtherExc c a k).
Proof.
  intros H Hnew.
  destruct (define_Ok _ _ _ _ _ H) as (pat & pats & Hf & Hr & _).
  exists (message.mkError r (_uri pat) a (sent_kwargs a k)). split.
  - unfold _message_from_exception. rewrite Hf, lookup_insert_eq. simpl.
    destruct a; [by destruct k | done].
  - rewrite exception_from_message_eq. simpl.
    by rewrite Hr, lookup_insert_eq, Hnew.
Qed.

Lemma define_round_trip_witness :
  ∃ msg,
    _message_from_exception
      (snd (define plain_classes Peer_init "MyError" (Some "com.example.foo")))
      9 (OtherExc "MyError" (Some [PStr "boom"]) None) = Ok msg
    ∧ _exception_from_message plain_classes
        (snd (define plain_classes Peer_init "MyError"
                     (Some "com.example.foo"))) msg
      = Ok (OtherExc "MyError" (Some [PStr "boom"]) None).
Proof.
  apply (define_round_trip plain_classes Peer_init _ "MyError"
           (Some "com.example.foo") 9 (Some [PStr "boom"]) None);
    reflexivity.
Defined.

(** X3: [define] raises AssertionError exactly when the URI argument and
    the patterns declared by the class are both given or both missing, and
    then it leaves the two maps as they were. *)
Theorem define_assertion classes (self : Peer) (c : ecls)
  (error : option string) :
  (fst (define classes self c error) = Raise AssertionError
   ↔ (is_Some error ↔ is_Some (_wampuris (classes c))))
  ∧ (fst (define classes self c error) = Raise AssertionError →
     snd (define classes self c error) = self).
Proof.
  unfold define.
  destruct error as [u|]; destruct (_wampuris (classes c)) as [[|pat pats]|];
    simpl; (split; [split|]); try done; try (intros _; split; eauto);
    try (intros [H1 H2]);
    try (by destruct H1 as [? ?]; eauto);
    try (by destruct H2 as [? ?]; eauto).
Qed.

Lemma define_assertion_witness :
  define mixed_classes Peer_init "app.Declared" (Some "com.example.other")
  = (Raise AssertionError, Peer_init)
  ∧ define mixed_classes Peer_init "app.Plain" None
    = (Raise AssertionError, Peer_init).
Proof.
  split.
  - destruct (define_assertion mixed_classes Peer_init "app.Declared"
                (Some "com.example.other")) as [[_ H1] H2].
    assert (fst (define mixed_classes Peer_init "app.Declared"
                   (Some "com.example.other")) = Raise AssertionError) as Hr.
    { apply H1. split; intros _; eauto. }
    rewrite (surjective_pairing (define _ _ _ _)). by rewrite Hr, (H2 Hr).
  - destruct (define_assertion mixed_classes Peer_init "app.Plain" None)
      as [[_ H1] H2].
    assert (fst (define mixed_classes Peer_init "app.Plain" None)
            = Raise AssertionError) as Hr.
    { apply H1. split; intros [? H]; discriminate H. }
    rewrite (surjective_pairing (define _ _ _ _)). by rewrite Hr, (H2 Hr).
Defined.

(** X4: [define] without a URI on a class that declares an empty list of
    patterns raises IndexError after it has stored the empty list in the
    forward map: the reverse map is as it was, and from then on
    [_message_from_exception] raises IndexError for every exception of the
    class that is not an ApplicationError. *)
Theorem define_empty_patterns classes (self : Peer) (c : ecls) :
  _wampuris (classes c) = Some [] →
  ∃ self',
    define classes self c None = (Raise IndexError, self')
    ∧ _ecls_to_uri_pat self' = <[c := []]> (_ecls_to_uri_pat self)
    ∧ _uri_to_ecls self' = _uri_to_ecls self
    ∧ ∀ r a k,
        _message_from_exception self' r (OtherExc c a k) = Raise IndexError.
Proof.
  intros Hw. unfold define. rewrite Hw. eexists. split; [reflexivity|].
  simpl. repeat split. intros r a k.
  unfold _message_from_exception. simpl. by rewrite lookup_insert_eq.
Qed.

Lemma define_empty_patterns_witness :
  ∃ self',
    define mixed_classes Peer_init "app.Empty" None = (Raise IndexError, self')
    ∧ _ecls_to_uri_pat self' !! "app.Empty" = Some []
    ∧ _message_from_exception self' 1 (OtherExc "app.Empty" (Some []) None)
      = Raise IndexError.
Proof.
  destruct (define_empty_patterns mixed_classes Peer_init "app.Empty" eq_refl)
    as (self' & H1 & H2 & _ & H4).
  exists self'. split; [exact H1|]. split; [|apply H4].
  rewrite H2. apply lookup_insert_eq.
Defined.

(** X5: a [define] that returns keeps the invariant that every class of
    the forward map has a first pattern; the maps of a new Peer have it. *)
Theorem define_keeps_forward_nonempty classes (self self' : Peer) (c : ecls)
  (error : option string) :
  forward_nonempty self →
  define classes self c error = (Ok tt, self') →
  forward_nonempty self'.
Proof.
  intros Hinv H. destruct (define_Ok _ _ _ _ _ H) as (pat & pats & Hf & _ & _).
  intros c' pats'. rewrite Hf, lookup_insert.
  case_decide as Hc.
  - by intros [= <-].
  - apply Hinv.
Qed.

Lemma forward_nonempty_init : forward_nonempty Peer_init.
Proof. intros c pats H. simpl in H. by rewrite lookup_empty in H. Qed.

Lemma define_keeps_forward_nonempty_witness :
  forward_nonempty
    (snd (define plain_classes Peer_init "MyError" (Some "com.example.foo"))).
Proof.
  apply (define_keeps_forward_nonempty plain_classes Peer_init _ "MyError"
           (Some "com.example.foo") forward_nonempty_init).
  reflexivity.
Defined.

(** X6: when every class of the forward map has a first pattern,
    [_message_from_exception] raises for no exception and no request: the
    message it returns carries the request id it was given. *)
Theorem message_from_exception_returns (self : Peer) (r : Z) (exc : Exc) :
  forward_nonempty self →
  ∃ msg, _message_from_exception self r exc = Ok msg
         ∧ message.request msg = r.
Proof.
  intros Hinv. destruct exc as [c u a k|c a k]; [by eexists|].
  unfold _message_from_exception.
  destruct (_ecls_to_uri_pat self !! c) as [[|pat pats]|] eqn:Hc; simpl.
  - by destruct (Hinv _ _ Hc).
  - destruct a; [destruct k|]; by eexists.
  - destruct a; [destruct k|]; by eexists.
Qed.

Lemma message_from_exception_returns_witness :
  ∃ msg, _message_from_exception Peer_init 3
           (OtherExc "KeyError" None None) = Ok msg
         ∧ message.request msg = 3.
Proof.
  apply (message_from_exception_returns Peer_init 3
           (OtherExc "KeyError" None None) forward_nonempty_init).
Defined.

(** X7: whatever [define] does for a class, it leaves the forward entry of
    every other class as it was, and a reverse entry that changed now
    names the class being defined. *)
Theorem define_frame classes (self : Peer) (c : ecls) (error : option string) :
  (∀ c', c' ≠ c →
         _ecls_to_uri_pat (snd (define classes self c error)) !! c'
         = _ecls_to_uri_pat self !! c')
  ∧ (∀ U, _uri_to_ecls (snd (define classes self c error)) !! U
          ≠ _uri_to_ecls self !! U →
          _uri_to_ecls (snd (define classes self c error)) !! U = Some c).
Proof.
  unfold define.
  destruct error as [u|]; destruct (_wampuris (classes c)) as [[|pat pats]|];
    simpl; split; try done;
    try (intros c' Hc; by rewrite lookup_insert_ne);
    intros U; rewrite lookup_insert; case_decide; done.
Qed.

Lemma define_frame_witness :
  _ecls_to_uri_pat (snd (define plain_classes two_for_one "app.ErrorC"
                                (Some "com.example.failed"))) !! "app.ErrorA"
  = _ecls_to_uri_pat two_for_one !! "app.ErrorA".
Proof.
  apply (proj1 (define_frame plain_classes two_for_one "app.ErrorC"
                  (Some "com.example.failed"))).
  discriminate.
Defined.

(** ** More round trips of the translator *)

(** X8: an ApplicationError whose URI is not in the reverse map goes out
    under its own URI and comes back as the generic ApplicationError with
    the same URI and payload: itself when its class is ApplicationError,
    with the subclass lost otherwise. *)
Theorem generic_round_trip classes (self self' : Peer) (r : Z) (c : ecls)
  (U : string) (a : list PyVal) (k : gmap string PyVal) :
  _uri_to_ecls self' !! U = None →
  ∃ msg,
    _message_from_exception self r (AppError c U a k) = Ok msg
    ∧ _exception_from_message classes self' msg
      = Ok (AppError ApplicationError U a k).
Proof.
  intros Hrev. eexists. split; [reflexivity|].
  rewrite exception_from_message_eq. simpl. by rewrite Hrev.
Qed.

Lemma generic_round_trip_witness :
  ∃ msg,
    _message_from_exception two_for_one 2
      (AppError ApplicationError "com.example.unknown" [PInt 1] ∅) = Ok msg
    ∧ _exception_from_message plain_classes two_for_one msg
      = Ok (AppError ApplicationError "com.example.unknown" [PInt 1] ∅).
Proof.
  apply (generic_round_trip plain_classes two_for_one two_for_one 2
           ApplicationError "com.example.unknown" [PInt 1] ∅).
  reflexivity.
Defined.

(** X9: an exception that is not an ApplicationError and whose class the
    sending peer has not registered reaches a peer that has no class for
    wamp.error.runtime_error as the generic ApplicationError of that URI,
    with the positional and keyword arguments it had. *)
Theorem unregistered_exception_arrives classes (self self' : Peer) (r : Z)
  (c : ecls) (a : option (list PyVal)) (k : option (gmap string PyVal)) :
  _ecls_to_uri_pat self !! c = None →
  _uri_to_ecls self' !! "wamp.error.runtime_error" = None →
  ∃ msg,
    _message_from_exception self r (OtherExc c a k) = Ok msg
    ∧ _exception_from_message classes self' msg
      = Ok (AppError ApplicationError "wamp.error.runtime_error"
                     (default [] a) (default ∅ (sent_kwargs a k))).
Proof.
  intros Hfwd Hrev.
  exists (message.mkError r "wamp.error.runtime_error" a (sent_kwargs a k)).
  split.
  - unfold _message_from_exception. rewrite Hfwd. simpl.
    destruct a; [by destruct k | done].
  - rewrite exception_from_message_eq. simpl. by rewrite Hrev.
Qed.

Lemma unregistered_exception_arrives_witness :
  ∃ msg,
    _message_from_exception two_for_one 2
      (OtherExc "KeyError" (Some [PStr "k"]) None) = Ok msg
    ∧ _exception_from_message plain_classes Peer_init msg
      = Ok (AppError ApplicationError "wamp.error.runtime_error" [PStr "k"] ∅).
Proof.
  apply (unregistered_exception_arrives plain_classes two_for_one Peer_init 2
           "KeyError" (Some [PStr "k"]) None); reflexivity.
Defined.

(** X10: an Error message whose URI is not in the reverse map, turned into
    an exception and back into a message for request r, keeps its URI and
    its payload, an absent payload coming back as the empty one. *)
Theorem message_round_trip classes (self self' : Peer) (r : Z)
  (msg : message.Error) :
  _uri_to_ecls self !! message.error msg = None →
  ∃ exc,
    _exception_from_message classes self msg = Ok exc
    ∧ _message_from_exception self' r exc
      = Ok (message.mkError r (message.error msg)
              (Some (default [] (message.args msg)))
              (Some (default ∅ (message.kwargs msg)))).
Proof.
  intros Hrev. eexists. split.
  - rewrite exception_from_message_eq. by rewrite Hrev.
  - reflexivity.
Qed.

Lemma message_round_trip_witness :
  ∃ exc,
    _exception_from_message plain_classes Peer_init
      (message.mkError 5 "com.example.foo" (Some [PInt 1]) None) = Ok exc
    ∧ _message_from_exception two_for_one 6 exc
      = Ok (message.mkError 6 "com.example.foo" (Some [PInt 1]) (Some ∅)).
Proof.
  apply (message_round_trip plain_classes Peer_init two_for_one 6
           (message.mkError 5 "com.example.foo" (Some [PInt 1]) None)).
  reflexivity.
Defined.

(** ** The operations on an open session, as equations *)

Lemma publish_open self w transport topic args kwargs :
  _transport self = Some transport →
  is_string topic = true →
  publish topic args kwargs (self, w)
  = (send_result transport (publish_msg (drawn w) topic args kwargs)
       (allocated w),
     (set_publish_reqs (<[drawn w := allocated w]>) self,
      after_send (publish_msg (drawn w) topic args kwargs) w)).
Proof.
  intros Htr Ht. unfold publish, send_result, after_send, drawn, allocated.
  rewrite Ht. run. rewrite Htr. run.
  by destruct (send_raises transport _).
Qed.

Lemma subscribe_open self w transport handler topic options :
  _transport self = Some transport →
  callable handler = true →
  is_string topic = true →
  is_subscribe_options options = true →
  subscribe handler topic options (self, w)
  = (send_result transport (subscribe_msg (drawn w) topic options)
       (allocated w),
     (set_subscribe_reqs (<[drawn w := (allocated w, handler)]>) self,
      after_send (subscribe_msg (drawn w) topic options) w)).
Proof.
  intros Htr Hh Ht Ho.
  unfold subscribe, send_result, after_send, drawn, allocated.
  rewrite Hh, Ht, Ho. run. rewrite Htr. run.
  by destruct (send_raises transport _).
Qed.

Lemma unsubscribe_open self w transport subscription :
  _transport self = Some transport →
  unsubscribe (PInt subscription) (self, w)
  = (send_result transport (message.Unsubscribe (drawn w) subscription)
       (allocated w),
     (set_unsubscribe_reqs (<[drawn w := (allocated w, subscription)]>) self,
      after_send (message.Unsubscribe (drawn w) subscription) w)).
Proof.
  intros Htr. unfold unsubscribe, send_result, after_send, drawn, allocated.
  run. rewrite Htr. run.
  by destruct (send_raises transport _).
Qed.

(** ** Messages the engine does not own *)

(** X11: [onMessage] returns False exactly for the messages that are not a
    Published, Subscribed, Unsubscribed or Error reply, and it leaves the
    engine and the world untouched for them; a reply is never answered
    with False. *)
Theorem onMessage_False_iff classes (msg : message.Message) (st : State) :
  (fst (onMessage classes msg st) = Ok false ↔ is_reply msg = false)
  ∧ (is_reply msg = false → onMessage classes msg st = (Ok false, st)).
Proof.
  destruct st as [self w]. split; [split|].
  - destruct msg as [q p|q s|q|e| | | |]; try done; unfold onMessage; run.
    + destruct (_publish_reqs self !! q) as [d|]; run; [|done].
      by destruct (deferreds w !! d) as [[|?]|].
    + destruct (_subscribe_reqs self !! q) as [[d h]|]; run; [|done].
      by destruct (deferreds w !! d) as [[|?]|].
    + destruct (_unsubscribe_reqs self !! q) as [[d s]|]; run; [|done].
      case_bool_decide; run; by destruct (deferreds w !! d) as [[|?]|].
    + destruct (_publish_reqs self !! message.request e) as [d|]; run.
      { rewrite exception_from_message_eq. run.
        by destruct (deferreds w !! d) as [[|?]|]. }
      destruct (_subscribe_reqs self !! message.request e) as [[d h]|]; run.
      { rewrite exception_from_message_eq. run.
        by destruct (deferreds w !! d) as [[|?]|]. }
      by destruct (_unsubscribe_reqs self !! message.request e) as [[d s]|].
  - by destruct msg.
  - by destruct msg.
Qed.

Lemma onMessage_False_iff_witness :
  onMessage plain_classes (message.Other "EVENT") open0 = (Ok false, open0).
Proof.
  apply (proj2 (onMessage_False_iff plain_classes (message.Other "EVENT")
                  open0)).
  reflexivity.
Defined.

(** ** Arguments are checked before the transport *)

(** X12: an argument of the wrong type makes [publish], [subscribe] and
    [unsubscribe] raise AssertionError whether a transport is attached or
    not, with the engine and the world untouched. *)
Theorem bad_argument_raises_AssertionError (st : State)
  (topic handler options subscription : PyVal) (args : list PyVal)
  (kwargs : gmap string PyVal) :
  (is_string topic = false →
   publish topic args kwargs st = (Raise AssertionError, st))
  ∧ (callable handler = false ∨ is_string topic = false
     ∨ is_subscribe_options options = false →
     subscribe handler topic options st = (Raise AssertionError, st))
  ∧ (is_integer subscription = false →
     unsubscribe subscription st = (Raise AssertionError, st)).
Proof.
  split; [|split].
  - intros Ht. unfold publish. by rewrite Ht.
  - intros H. unfold subscribe.
    destruct (callable handler); [|done].
    destruct (is_string topic); [|done].
    destruct (is_subscribe_options options); [|done].
    by destruct H as [H|[H|H]].
  - intros Hs. unfold unsubscribe. by destruct subscription.
Qed.

Lemma bad_argument_raises_AssertionError_witness :
  let closed := snd (onClose open0) in
  publish PNone [] ∅ closed = (Raise AssertionError, closed)
  ∧ subscribe (PInt 1) (PStr "com.example.topic") PNone open0
    = (Raise AssertionError, open0)
  ∧ unsubscribe (PBool true) closed = (Raise AssertionError, closed).
Proof.
  intros closed.
  destruct (bad_argument_raises_AssertionError closed PNone (PInt 1) PNone
              (PBool true) [] ∅) as (H1 & _ & H3).
  destruct (bad_argument_raises_AssertionError open0
              (PStr "com.example.topic") (PInt 1) PNone (PBool true) [] ∅)
    as (_ & H2 & _).
  split; [apply H1; reflexivity|].
  split; [apply H2; left; reflexivity | apply H3; reflexivity].
Defined.

(** ** What a reply resolves *)

Lemma fired_lookup (d : Deferred) (r : DResult) (ev : Event) (w : World) :
  deferreds w !! d = Some DPending →
  deferreds (fired d r ev w) !! d = Some (DCalled r)
  ∧ (∀ d', d' ≠ d → deferreds (fired d r ev w) !! d' = deferreds w !! d')
  ∧ trace (fired d r ev w) = trace w ++ [ev].
Proof.
  intros Hd. simpl. split; [|split; [|done]].
  - apply list_lookup_insert_eq. by apply lookup_lt_Some in Hd.
  - intros d' Hne. by apply list_lookup_insert_ne.
Qed.

(** X13: Published(R, P) for a pending request R whose deferred has not
    fired returns True and fires that deferred with P; the engine (every
    ledger, the subscriptions) and every other deferred are as they
    were. *)
Theorem Published_resolves_only_its_request classes (self : WampProtocol)
  (w : World) (R P : Z) (d : Deferred) :
  _publish_reqs self !! R = Some d →
  deferreds w !! d = Some DPending →
  ∃ w',
    onMessage classes (message.Published R P) (self, w) = (Ok true, (self, w'))
    ∧ deferreds w' !! d = Some (DCalled (DValue (PInt P)))
    ∧ (∀ d', d' ≠ d → deferreds w' !! d' = deferreds w !! d')
    ∧ trace w' = trace w ++ [EvCallback d (PInt P)].
Proof.
  intros Hr Hd. eexists. split; [by apply onMessage_Published|].
  by apply fired_lookup.
Qed.

Lemma Published_resolves_only_its_request_witness :
  let st := snd (publish (PStr "com.example.topic") [] ∅
                   (snd (publish (PStr "com.example.topic") [] ∅ open0))) in
  ∃ w',
    onMessage plain_classes (message.Published 8 100) st
    = (Ok true, (fst st, w'))
    ∧ deferreds w' !! 1%nat = Some (DCalled (DValue (PInt 100)))
    ∧ deferreds w' !! 0%nat = Some DPending.
Proof.
  intros st.
  destruct (Published_resolves_only_its_request plain_classes (fst st)
              (snd st) 8 100 1%nat eq_refl eq_refl) as (w' & H1 & H2 & H3 & _).
  exists w'. split; [exact H1|]. split; [exact H2|].
  transitivity (deferreds (snd st) !! 0%nat);
    [apply H3; discriminate | reflexivity].
Defined.

(** X14: an Error reply for a request of the Publish ledger, or else of
    the Subscribe ledger, whose deferred has not fired returns True,
    removes that entry and nothing else from the engine (no subscription
    is installed), and fires the deferred with the exception
    [_exception_from_message] builds; no other deferred changes. *)
Theorem Error_rejects_pending classes (self : WampProtocol) (w : World)
  (e : message.Error) (d : Deferred) :
  deferreds w !! d = Some DPending →
  (_publish_reqs self !! message.request e = Some d
   ∨ (_publish_reqs self !! message.request e = None
      ∧ ∃ h, _subscribe_reqs self !! message.request e = Some (d, h))) →
  ∃ exc self' w',
    _exception_from_message classes (peer self) e = Ok exc
    ∧ onMessage classes (message.IsError e) (self, w) = (Ok true, (self', w'))
    ∧ self' = match _publish_reqs self !! message.request e with
              | Some _ => set_publish_reqs (delete (message.request e)) self
              | None => set_subscribe_reqs (delete (message.request e)) self
              end
    ∧ deferreds w' !! d = Some (DCalled (DFailure exc))
    ∧ (∀ d', d' ≠ d → deferreds w' !! d' = deferreds w !! d')
    ∧ trace w' = trace w ++ [EvErrback d exc].
Proof.
  intros Hd H.
  assert (d < length (deferreds w))%nat as Hlt by by apply lookup_lt_Some in Hd.
  eexists _. destruct H as [Hp|[Hp [h Hs]]].
  - eexists _, _. split; [apply exception_from_message_eq|].
    unfold onMessage. run. rewrite Hp. run.
    rewrite exception_from_message_eq. run. rewrite Hd.
    split; [reflexivity|]. simpl. split; [done|].
    split; [by apply list_lookup_insert_eq|].
    split; [|done]. intros d' Hne. by apply list_lookup_insert_ne.
  - eexists _, _. split; [apply exception_from_message_eq|].
    unfold onMessage. run. rewrite Hp, Hs. run.
    rewrite exception_from_message_eq. run. rewrite Hd.
    split; [reflexivity|]. simpl. split; [done|].
    split; [by apply list_lookup_insert_eq|].
    split; [|done]. intros d' Hne. by apply list_lookup_insert_ne.
Qed.

Lemma Error_rejects_pending_witness :
  let st := snd (subscribe (PCallable 3) (PStr "com.example.topic") PNone
                   open0) in
  ∃ self' w',
    onMessage plain_classes
      (message.IsError
         (message.mkError 7 "wamp.error.not_authorized" None None)) st
    = (Ok true, (self', w'))
    ∧ _subscribe_reqs self' !! 7 = None
    ∧ _subscriptions self' = ∅
    ∧ deferreds w' !! 0%nat
      = Some (DCalled (DFailure (AppError ApplicationError
                                   "wamp.error.not_authorized" [] ∅))).
Proof.
  intros st.
  destruct (Error_rejects_pending plain_classes (fst st) (snd st)
              (message.mkError 7 "wamp.error.not_authorized" None None)
              0%nat eq_refl
              (or_intror (conj eq_refl (ex_intro _ (PCallable 3) eq_refl))))
    as (exc & self' & w' & H1 & H2 & H3 & H4 & _).
  exists self', w'. split; [exact H2|].
  injection H1 as <-. rewrite H3. repeat split; try reflexivity. exact H4.
Defined.

(** ** The effect of a call, case by case *)

(** What [onMessage] leaves of the engine: itself, or itself with one
    subscription installed or removed, or with one ledger entry removed. *)
Lemma onMessage_engine classes (msg : message.Message) (self : WampProtocol)
  (w : World) :
  let self' := fst (snd (onMessage classes msg (self, w))) in
  self' = self
  ∨ (∃ R S d h, msg = message.Subscribed R S
                ∧ _subscribe_reqs self !! R = Some (d, h)
                ∧ self' = set_subscriptions (<[S := h]>) self)
  ∨ (∃ R S d, msg = message.Unsubscribed R
              ∧ _unsubscribe_reqs self !! R = Some (d, S)
              ∧ self' = set_subscriptions (delete S) self)
  ∨ (∃ e, msg = message.IsError e
          ∧ (self' = set_publish_reqs (delete (message.request e)) self
             ∨ self' = set_subscribe_reqs (delete (message.request e)) self
             ∨ self' = set_unsubscribe_reqs (delete (message.request e)) self)).
Proof.
  destruct msg as [q p|q s|q|e| | | |]; unfold onMessage; run; try by left.
  - destruct (_publish_reqs self !! q) as [d|]; run; [|by left].
    destruct (deferreds w !! d) as [[|?]|]; by left.
  - destruct (_subscribe_reqs self !! q) as [[d h]|] eqn:Hq; run; [|by left].
    right; left. exists q, s, d, h.
    destruct (deferreds w !! d) as [[|?]|]; by repeat split.
  - destruct (_unsubscribe_reqs self !! q) as [[d s]|] eqn:Hq; run; [|by left].
    case_bool_decide; run.
    + right; right; left. exists q, s, d.
      destruct (deferreds w !! d) as [[|?]|]; by repeat split.
    + left. by destruct (deferreds w !! d) as [[|?]|].
  - right; right; right. exists e. split; [done|].
    destruct (_publish_reqs self !! message.request e) as [d|]; run.
    { rewrite exception_from_message_eq. run.
      left. by destruct (deferreds w !! d) as [[|?]|]. }
    destruct (_subscribe_reqs self !! message.request e) as [[d h]|]; run.
    { rewrite exception_from_message_eq. run.
      right; left. by destruct (deferreds w !! d) as [[|?]|]. }
    destruct (_unsubscribe_reqs self !! message.request e) as [[d s]|] eqn:Hu;
      run.
    + by right; right.
    + right; right.
      destruct self; unfold set_unsubscribe_reqs; simpl in *.
      f_equal. symmetry. by apply delete_id.
Qed.

(** What [onMessage] leaves of the world: the id source untouched, the
    trace extended, and at most one deferred, pending before, fired. *)
Lemma onMessage_world classes (msg : message.Message) (self : WampProtocol)
  (w : World) :
  let w' := snd (snd (onMessage classes msg (self, w))) in
  id_source w' = id_source w
  ∧ id_count w' = id_count w
  ∧ (∃ evs, trace w' = trace w ++ evs)
  ∧ (deferreds w' = deferreds w
     ∨ ∃ d r, deferreds w !! d = Some DPending
              ∧ deferreds w' = <[d := DCalled r]> (deferreds w)).
Proof.
  assert (∀ w0 : World, ∃ evs, trace w0 = trace w0 ++ evs) as Hnil
    by (intros w0; exists []; by rewrite app_nil_r).
  destruct msg as [q p|q s|q|e| | | |]; unfold onMessage; run;
    try (by repeat split; eauto).
  - destruct (_publish_reqs self !! q) as [d|]; run;
      [|by repeat split; eauto].
    destruct (deferreds w !! d) as [[|?]|] eqn:Hd; simpl;
      repeat split; eauto.
  - destruct (_subscribe_reqs self !! q) as [[d h]|]; run;
      [|by repeat split; eauto].
    destruct (deferreds w !! d) as [[|?]|] eqn:Hd; simpl;
      repeat split; eauto.
  - destruct (_unsubscribe_reqs self !! q) as [[d s]|]; run;
      [|by repeat split; eauto].
    case_bool_decide; run;
      destruct (deferreds w !! d) as [[|?]|] eqn:Hd; simpl;
      repeat split; eauto.
  - destruct (_publish_reqs self !! message.request e) as [d|]; run.
    { rewrite exception_from_message_eq. run.
      destruct (deferreds w !! d) as [[|?]|] eqn:Hd; simpl;
        repeat split; eauto. }
    destruct (_subscribe_reqs self !! message.request e) as [[d h]|]; run.
    { rewrite exception_from_message_eq. run.
      destruct (deferreds w !! d) as [[|?]|] eqn:Hd; simpl;
        repeat split; eauto. }
    destruct (_unsubscribe_reqs self !! message.request e) as [[d s]|]; run;
      repeat split; eauto.
Qed.

(** An operation either raises before it changes anything, or goes as far
    as [send] on an open session. *)
Lemma publish_cases topic args kwargs self w :
  snd (publish topic args kwargs (self, w)) = (self, w)
  ∨ snd (publish topic args kwargs (self, w))
    = (set_publish_reqs (<[drawn w := allocated w]>) self,
       after_send (publish_msg (drawn w) topic args kwargs) w).
Proof.
  destruct (is_string topic) eqn:Ht.
  - destruct (_transport self) as [t|] eqn:Htr.
    + right. by rewrite (publish_open _ _ t).
    + left. unfold publish. rewrite Ht. run. by rewrite Htr.
  - left. unfold publish. by rewrite Ht.
Qed.

Lemma subscribe_cases handler topic options self w :
  snd (subscribe handler topic options (self, w)) = (self, w)
  ∨ (callable handler = true
     ∧ snd (subscribe handler topic options (self, w))
       = (set_subscribe_reqs (<[drawn w := (allocated w, handler)]>) self,
          after_send (subscribe_msg (drawn w) topic options) w)).
Proof.
  destruct (callable handler) eqn:Hh;
    [destruct (is_string topic) eqn:Ht;
     [destruct (is_subscribe_options options) eqn:Ho|]|].
  - destruct (_transport self) as [t|] eqn:Htr.
    + right. split; [done|]. by rewrite (subscribe_open _ _ t).
    + left. unfold subscribe. rewrite Hh, Ht, Ho. run. by rewrite Htr.
  - left. unfold subscribe. by rewrite Hh, Ht, Ho.
  - left. unfold subscribe. by rewrite Hh, Ht.
  - left. unfold subscribe. by rewrite Hh.
Qed.

Lemma unsubscribe_cases subscription self w :
  snd (unsubscribe subscription (self, w)) = (self, w)
  ∨ ∃ sub,
      subscription = PInt sub
      ∧ snd (unsubscribe subscription (self, w))
        = (set_unsubscribe_reqs (<[drawn w := (allocated w, sub)]>) self,
           after_send (message.Unsubscribe (drawn w) sub) w).
Proof.
  destruct subscription as [| |sub| | | | | |]; try by left.
  destruct (_transport self) as [t|] eqn:Htr.
  - right. exists sub. split; [done|]. by rewrite (unsubscribe_open _ _ t).
  - left. unfold unsubscribe. run. by rewrite Htr.
Qed.

(** ** Invariants of every sequence of calls *)

Lemma run_calls_ind classes (P : State → Prop) :
  (∀ c st, P st → P (step classes c st)) →
  ∀ cs st, P st → P (run_calls classes cs st).
Proof.
  intros Hstep cs. unfold run_calls.
  induction cs as [|c cs IH]; intros st Hst; simpl; [done|].
  apply IH. by apply Hstep.
Qed.

Lemma step_deferreds classes (c : Call) (st : State) :
  deferreds (snd (step classes c st)) = deferreds (snd st)
  ∨ deferreds (snd (step classes c st)) = deferreds (snd st) ++ [DPending]
  ∨ ∃ d r, deferreds (snd st) !! d = Some DPending
           ∧ deferreds (snd (step classes c st))
             = <[d := DCalled r]> (deferreds (snd st)).
Proof.
  destruct st as [self w]. destruct c as [t|msg| |tp a k|h tp o|s]; simpl.
  - by left.
  - destruct (onMessage_world classes msg self w) as (_ & _ & _ & [H|H]);
      [by left | by right; right].
  - by left.
  - destruct (publish_cases tp a k self w) as [-> | ->]; [by left|by right; left].
  - destruct (subscribe_cases h tp o self w) as [-> | [_ ->]];
      [by left|by right; left].
  - destruct (unsubscribe_cases s self w) as [-> | (sub & _ & ->)];
      [by left|by right; left].
Qed.

(** X15: through any sequence of calls on the engine a deferred of the
    heap stays in the heap, and a deferred that has fired keeps the result
    it fired with: no later reply, error or operation changes it. *)
Theorem fired_is_final classes (cs : list Call) (st : State) (d : Deferred) :
  ((d < length (deferreds (snd st)))%nat →
   (d < length (deferreds (snd (run_calls classes cs st))))%nat)
  ∧ (∀ res, deferreds (snd st) !! d = Some (DCalled res) →
            deferreds (snd (run_calls classes cs st)) !! d
            = Some (DCalled res)).
Proof.
  split.
  - apply (run_calls_ind classes
             (λ st, (d < length (deferreds (snd st)))%nat)).
    intros c st' Hlt. clear st. rename st' into st.
    destruct (step_deferreds classes c st) as [-> | [-> | (d0 & r & _ & ->)]].
    + done.
    + rewrite length_app. simpl. lia.
    + by rewrite length_insert.
  - intros res.
    apply (run_calls_ind classes
             (λ st, deferreds (snd st) !! d = Some (DCalled res))).
    intros c st' Hd. clear st. rename st' into st.
    destruct (step_deferreds classes c st)
      as [-> | [-> | (d0 & r & Hd0 & ->)]].
    + done.
    + by apply lookup_app_l_Some.
    + rewrite list_lookup_insert_ne; [done|]. intros ->.
      pose proof (eq_trans (eq_sym Hd0) Hd) as E. discriminate E.
Qed.

Lemma fired_is_final_witness :
  let st := snd (onMessage plain_classes (message.Published 7 100)
                   (snd (publish (PStr "com.example.topic") [] ∅ open0))) in
  deferreds
    (snd (run_calls plain_classes
            [CallOnMessage (message.Published 7 200);
             CallOnMessage
               (message.IsError (message.mkError 7 "com.example.x" None None));
             CallOnClose]
            st)) !! 0%nat
  = Some (DCalled (DValue (PInt 100))).
Proof.
  intros st.
  apply (proj2 (fired_is_final plain_classes
                  [CallOnMessage (message.Published 7 200);
                   CallOnMessage
                     (message.IsError
                        (message.mkError 7 "com.example.x" None None));
                   CallOnClose] st 0%nat)).
  reflexivity.
Defined.

(** [onMessage] adds no ledger entry, and a handler it installs comes from
    the Subscribe ledger. *)
Lemma onMessage_entries classes (msg : message.Message) (self : WampProtocol)
  (w : World) :
  let self' := fst (snd (onMessage classes msg (self, w))) in
  (∀ R d, _publish_reqs self' !! R = Some d → _publish_reqs self !! R = Some d)
  ∧ (∀ R x, _subscribe_reqs self' !! R = Some x →
            _subscribe_reqs self !! R = Some x)
  ∧ (∀ R x, _unsubscribe_reqs self' !! R = Some x →
            _unsubscribe_reqs self !! R = Some x)
  ∧ (∀ S h, _subscriptions self' !! S = Some h →
            _subscriptions self !! S = Some h
            ∨ ∃ R d, _subscribe_reqs self !! R = Some (d, h)).
Proof.
  intros self'.
  destruct (onMessage_engine classes msg self w)
    as [H|[(R & S & d & h & _ & Hq & H)|[(R & S & d & _ & _ & H)
       |(e & _ & [H|[H|H]])]]];
    fold self' in H; rewrite H; simpl; repeat split; eauto;
    try (intros ? ? [_ ?]%lookup_delete_Some; by eauto).
  intros S' h'. rewrite lookup_insert. case_decide; [|by eauto].
  intros [= <-]. eauto.
Qed.

Lemma onMessage_length classes (msg : message.Message) (self : WampProtocol)
  (w : World) :
  length (deferreds (snd (snd (onMessage classes msg (self, w)))))
  = length (deferreds w).
Proof.
  destruct (onMessage_world classes msg self w)
    as (_ & _ & _ & [-> | (d & r & _ & ->)]); [done|apply length_insert].
Qed.

Lemma ledgers_allocated_step classes (c : Call) (st : State) :
  ledgers_allocated st → ledgers_allocated (step classes c st).
Proof.
  revert st. intros [self w] (Hp & Hs & Hu). unfold ledgers_allocated in *.
  simpl in Hp, Hs, Hu.
  destruct c as [t|msg| |tp a k|h tp o|s]; simpl.
  - done.
  - rewrite onMessage_length.
    destruct (onMessage_entries classes msg self w) as (Ep & Es & Eu & _).
    repeat split; intros; eauto.
  - done.
  - destruct (publish_cases tp a k self w) as [-> | ->]; [done|]. simpl.
    rewrite length_app. simpl. repeat split.
    + intros R d. rewrite lookup_insert. case_decide.
      * intros [= <-]. unfold allocated. lia.
      * intros H'. apply Hp in H'. lia.
    + intros R d h H'. apply Hs in H'. lia.
    + intros R d s H'. apply Hu in H'. lia.
  - destruct (subscribe_cases h tp o self w) as [-> | [_ ->]]; [done|]. simpl.
    rewrite length_app. simpl. repeat split.
    + intros R d H'. apply Hp in H'. lia.
    + intros R d h'. rewrite lookup_insert. case_decide.
      * intros [= <- _]. unfold allocated. lia.
      * intros H'. apply Hs in H'. lia.
    + intros R d s H'. apply Hu in H'. lia.
  - destruct (unsubscribe_cases s self w) as [-> | (sub & _ & ->)]; [done|].
    simpl. rewrite length_app. simpl. repeat split.
    + intros R d H'. apply Hp in H'. lia.
    + intros R d h H'. apply Hs in H'. lia.
    + intros R d s'. rewrite lookup_insert. case_decide.
      * intros [= <- _]. unfold allocated. lia.
      * intros H'. apply Hu in H'. lia.
Qed.

(** X16: every deferred held in a ledger is an object of the heap, in a
    new engine and after any sequence of calls on it: a reply never finds
    a ledger entry without its deferred. *)
Theorem ledgers_stay_allocated classes (cs : list Call) (st : State) :
  ledgers_allocated st →
  ledgers_allocated (run_calls classes cs st).
Proof.
  revert st. apply (run_calls_ind classes ledgers_allocated).
  apply ledgers_allocated_step.
Qed.

Lemma ledgers_allocated_init (w : World) :
  ledgers_allocated (WampProtocol_init, w).
Proof.
  repeat split; simpl; intros *; rewrite lookup_empty; discriminate.
Qed.

Lemma ledgers_stay_allocated_witness :
  ledgers_allocated
    (run_calls plain_classes
       [CallOnOpen good_transport;
        CallSubscribe (PCallable 1) (PStr "com.example.topic") PNone;
        CallOnMessage (message.Subscribed 7 40);
        CallUnsubscribe (PInt 40)]
       (WampProtocol_init, world0)).
Proof.
  apply (ledgers_stay_allocated plain_classes _ (WampProtocol_init, world0)).
  apply ledgers_allocated_init.
Defined.

(** X17: every handler the engine holds, in the Subscribe ledger or in the
    subscriptions table, passed the [callable] assertion of [subscribe]:
    the property holds in a new engine and is kept by every sequence of
    calls. *)
Theorem handlers_stay_callable classes (cs : list Call) (st : State) :
  handlers_callable (fst st) →
  handlers_callable (fst (run_calls classes cs st)).
Proof.
  revert st.
  apply (run_calls_ind classes (λ st, handlers_callable (fst st))).
  intros c [self w] (Hs & Ht). unfold handlers_callable in *. simpl in Hs, Ht.
  destruct c as [t|msg| |tp a k|h tp o|s]; simpl.
  - done.
  - destruct (onMessage_entries classes msg self w) as (_ & Es & _ & Et).
    split.
    + intros R d h H'. apply Es in H'. eauto.
    + intros S h H'. apply Et in H'. destruct H' as [H'|(R & d & H')]; eauto.
  - done.
  - by destruct (publish_cases tp a k self w) as [-> | ->].
  - destruct (subscribe_cases h tp o self w) as [-> | [Hh ->]]; [done|].
    simpl. split; [|done].
    intros R d h'. rewrite lookup_insert. case_decide; [|by eauto].
    by intros [= _ <-].
  - by destruct (unsubscribe_cases s self w) as [-> | (sub & _ & ->)].
Qed.

Lemma handlers_callable_init : handlers_callable WampProtocol_init.
Proof. split; simpl; intros *; rewrite lookup_empty; discriminate. Qed.

Lemma handlers_stay_callable_witness :
  handlers_callable
    (fst (run_calls plain_classes
            [CallOnOpen good_transport;
             CallSubscribe (PCallable 1) (PStr "com.example.topic") PNone;
             CallSubscribe (PInt 1) (PStr "com.example.topic") PNone;
             CallOnMessage (message.Subscribed 7 40)]
            (WampProtocol_init, world0))).
Proof.
  apply (handlers_stay_callable plain_classes _ (WampProtocol_init, world0)).
  apply handlers_callable_init.
Defined.

(** The fields no call of the engine writes. *)
Lemma step_untouched classes (c : Call) (st : State) :
  peer (fst (step classes c st)) = peer (fst st)
  ∧ _call_reqs (fst (step classes c st)) = _call_reqs (fst st)
  ∧ _register_reqs (fst (step classes c st)) = _register_reqs (fst st)
  ∧ _unregister_reqs (fst (step classes c st)) = _unregister_reqs (fst st)
  ∧ _registrations (fst (step classes c st)) = _registrations (fst st).
Proof.
  destruct st as [self w]. destruct c as [t|msg| |tp a k|h tp o|s]; simpl.
  - done.
  - destruct (onMessage_engine classes msg self w)
      as [H|[(R & S & d & h & _ & _ & H)|[(R & S & d & _ & _ & H)
         |(e & _ & [H|[H|H]])]]]; by rewrite H.
  - done.
  - by destruct (publish_cases tp a k self w) as [-> | ->].
  - by destruct (subscribe_cases h tp o self w) as [-> | [_ ->]].
  - by destruct (unsubscribe_cases s self w) as [-> | (sub & _ & ->)].
Qed.

(** X18: no sequence of transport events, replies and operations changes
    the error maps, the Call, Register and Unregister ledgers or the
    registrations table: the engine declares them and never writes
    them. *)
Theorem calls_leave_unused_tables classes (cs : list Call) (st : State) :
  peer (fst (run_calls classes cs st)) = peer (fst st)
  ∧ _call_reqs (fst (run_calls classes cs st)) = _call_reqs (fst st)
  ∧ _register_reqs (fst (run_calls classes cs st)) = _register_reqs (fst st)
  ∧ _unregister_reqs (fst (run_calls classes cs st))
    = _unregister_reqs (fst st)
  ∧ _registrations (fst (run_calls classes cs st)) = _registrations (fst st).
Proof.
  apply (run_calls_ind classes
           (λ st', peer (fst st') = peer (fst st)
                   ∧ _call_reqs (fst st') = _call_reqs (fst st)
                   ∧ _register_reqs (fst st') = _register_reqs (fst st)
                   ∧ _unregister_reqs (fst st') = _unregister_reqs (fst st)
                   ∧ _registrations (fst st') = _registrations (fst st)));
    [|done].
  intros c st' (H1 & H2 & H3 & H4 & H5).
  destruct (step_untouched classes c st') as (G1 & G2 & G3 & G4 & G5).
  by rewrite G1, G2, G3, G4, G5.
Qed.

(** X19: a call changes the subscriptions table only when it is
    [onMessage] on a Subscribed reply whose request is in the Subscribe
    ledger, or on an Unsubscribed reply whose request is in the
    Unsubscribe ledger; no operation, no Published or Error reply and no
    transport event touches it. *)
Theorem subscriptions_change_only_by_replies classes (c : Call) (st : State) :
  _subscriptions (fst (step classes c st)) ≠ _subscriptions (fst st) →
  (∃ R S, c = CallOnMessage (message.Subscribed R S)
          ∧ is_Some (_subscribe_reqs (fst st) !! R))
  ∨ (∃ R, c = CallOnMessage (message.Unsubscribed R)
          ∧ is_Some (_unsubscribe_reqs (fst st) !! R)).
Proof.
  destruct st as [self w]. destruct c as [t|msg| |tp a k|h tp o|s]; simpl.
  - done.
  - destruct (onMessage_engine classes msg self w)
      as [H|[(R & S & d & h & -> & Hq & H)|[(R & S & d & -> & Hq & H)
         |(e & _ & [H|[H|H]])]]]; try (rewrite H; simpl; done).
    + intros _. left. exists R, S. split; [done|]. by rewrite Hq.
    + intros _. right. exists R. split; [done|]. by rewrite Hq.
  - done.
  - by destruct (publish_cases tp a k self w) as [-> | ->].
  - by destruct (subscribe_cases h tp o self w) as [-> | [_ ->]].
  - by destruct (unsubscribe_cases s self w) as [-> | (sub & _ & ->)].
Qed.

Lemma subscriptions_change_only_by_replies_witness :
  let st := snd (subscribe (PCallable 3) (PStr "com.example.topic") PNone
                   open0) in
  (∃ R S, CallOnMessage (message.Subscribed 7 40)
          = CallOnMessage (message.Subscribed R S)
          ∧ is_Some (_subscribe_reqs (fst st) !! R))
  ∨ (∃ R, CallOnMessage (message.Subscribed 7 40)
          = CallOnMessage (message.Unsubscribed R)
          ∧ is_Some (_unsubscribe_reqs (fst st) !! R)).
Proof.
  intros st.
  apply (subscriptions_change_only_by_replies plain_classes
           (CallOnMessage (message.Subscribed 7 40)) st).
  intros H. apply (f_equal (lookup 40)) in H. discriminate H.
Defined.

(** X20: an Error reply removes one ledger entry at most, that of the
    first ledger, in the order Publish, Subscribe, Unsubscribe, in which
    its request is found, and changes nothing else of the engine; this
    whether or not the deferred of the entry had fired. *)
Theorem Error_removes_first_match classes (e : message.Error)
  (self : WampProtocol) (w : World) :
  fst (snd (onMessage classes (message.IsError e) (self, w)))
  = match _publish_reqs self !! message.request e with
    | Some _ => set_publish_reqs (delete (message.request e)) self
    | None =>
        match _subscribe_reqs self !! message.request e with
        | Some _ => set_subscribe_reqs (delete (message.request e)) self
        | None =>
            match _unsubscribe_reqs self !! message.request e with
            | Some _ => set_unsubscribe_reqs (delete (message.request e)) self
            | None => self
            end
        end
    end.
Proof.
  unfold onMessage. run.
  destruct (_publish_reqs self !! message.request e) as [d|]; run.
  { rewrite exception_from_message_eq. run.
    by destruct (deferreds w !! d) as [[|?]|]. }
  destruct (_subscribe_reqs self !! message.request e) as [[d h]|]; run.
  { rewrite exception_from_message_eq. run.
    by destruct (deferreds w !! d) as [[|?]|]. }
  by destruct (_unsubscribe_reqs self !! message.request e) as [[d s]|].
Qed.

(** X21: [onMessage] does not look at the transport: with another
    transport, or none after [onClose], a message has the same outcome,
    the same effect on the ledgers and the subscriptions and the same
    effect on the world. *)
Theorem onMessage_ignores_transport classes (msg : message.Message)
  (t : option Transport) (self : WampProtocol) (w : World) :
  onMessage classes msg (set_transport t self, w)
  = (fst (onMessage classes msg (self, w)),
     (set_transport t (fst (snd (onMessage classes msg (self, w)))),
      snd (snd (onMessage classes msg (self, w))))).
Proof.
  destruct msg as [q p|q s|q|e| | | |]; unfold onMessage; run; try done.
  - destruct (_publish_reqs self !! q) as [d|]; run; [|done].
    by destruct (deferreds w !! d) as [[|?]|].
  - destruct (_subscribe_reqs self !! q) as [[d h]|]; run; [|done].
    by destruct (deferreds w !! d) as [[|?]|].
  - destruct (_unsubscribe_reqs self !! q) as [[d s]|]; run; [|done].
    case_bool_decide; run; by destruct (deferreds w !! d) as [[|?]|].
  - destruct (_publish_reqs self !! message.request e) as [d|]; run.
    { rewrite exception_from_message_eq. run.
      by destruct (deferreds w !! d) as [[|?]|]. }
    destruct (_subscribe_reqs self !! message.request e) as [[d h]|]; run.
    { rewrite exception_from_message_eq. run.
      by destruct (deferreds w !! d) as [[|?]|]. }
    by destruct (_unsubscribe_reqs self !! message.request e) as [[d s]|].
Qed.

(** ** A request and its error reply *)

(** X22: on an open session, [publish] followed by the Error reply for the
    request it drew returns True, rejects the deferred of the request with
    the translated exception and removes the request from the Publish
    ledger; when the request id is in no other ledger, a second Error or a
    Published for it raises ProtocolError and changes nothing. *)
Theorem publish_then_Error classes (self : WampProtocol) (w : World)
  (transport : Transport) (topic : PyVal) (args : list PyVal)
  (kwargs : gmap string PyVal) (e : message.Error) (P : Z) :
  _transport self = Some transport →
  is_string topic = true →
  message.request e = drawn w →
  ∃ r st1 exc st2,
    publish topic args kwargs (self, w) = (r, st1)
    ∧ _exception_from_message classes (peer self) e = Ok exc
    ∧ onMessage classes (message.IsError e) st1 = (Ok true, st2)
    ∧ _publish_reqs (fst st2) !! drawn w = None
    ∧ deferreds (snd st2) !! allocated w = Some (DCalled (DFailure exc))
    ∧ (_subscribe_reqs self !! drawn w = None →
       _unsubscribe_reqs self !! drawn w = None →
       (∃ what, onMessage classes (message.IsError e) st2
                = (Raise (ProtocolError what (drawn w)), st2))
       ∧ (∃ what, onMessage classes (message.Published (drawn w) P) st2
                  = (Raise (ProtocolError what (drawn w)), st2))).
Proof.
  intros Htr Ht He.
  eexists _, _, _, _. split; [by apply (publish_open _ _ transport)|].
  split; [apply exception_from_message_eq|].
  unfold onMessage. run. rewrite He, lookup_insert_eq. run.
  rewrite exception_from_message_eq. run.
  unfold allocated. rewrite lookup_allocated.
  split; [reflexivity|]. simpl.
  split; [apply lookup_delete_eq|].
  split; [apply fired_allocated|].
  intros Hs Hu. rewrite !lookup_delete_eq, Hs, Hu. simpl. eauto.
Qed.

Lemma publish_then_Error_witness :
  ∃ r st1 st2,
    publish (PStr "com.example.topic") [] ∅ open0 = (r, st1)
    ∧ onMessage plain_classes
        (message.IsError (message.mkError 7 "com.example.denied" None None))
        st1
      = (Ok true, st2)
    ∧ _publish_reqs (fst st2) !! 7 = None
    ∧ deferreds (snd st2) !! 0%nat
      = Some (DCalled (DFailure (AppError ApplicationError
                                   "com.example.denied" [] ∅)))
    ∧ ∃ what, onMessage plain_classes (message.Published 7 1) st2
              = (Raise (ProtocolError what 7), st2).
Proof.
  destruct (publish_then_Error plain_classes (fst open0) (snd open0)
              good_transport (PStr "com.example.topic") [] ∅
              (message.mkError 7 "com.example.denied" None None) 1
              eq_refl eq_refl eq_refl)
    as (r & st1 & exc & st2 & H1 & H2 & H3 & H4 & H5 & H6).
  exists r, st1, st2.
  injection H2 as <-.
  split; [exact H1|]. split; [exact H3|]. split; [exact H4|].
  split; [exact H5|]. exact (proj2 (H6 eq_refl eq_refl)).
Defined.

(** ** The deferred an operation returns *)

Lemma operation_Ok (c : Call) (op : M Deferred) (self : WampProtocol)
  (w : World) (d : Deferred) (st' : State) :
  operation c = Some op →
  op (self, w) = (Ok d, st') →
  d = allocated w
  ∧ deferreds (snd st') = deferreds w ++ [DPending]
  ∧ id_count (snd st') = S (id_count w)
  ∧ _subscriptions (fst st') = _subscriptions self.
Proof.
  destruct c as [t|msg| |tp a k|h tp o|s]; try discriminate; intros [= <-].
  - destruct (is_string tp) eqn:Ht;
      [|unfold publish; rewrite Ht; discriminate].
    destruct (_transport self) as [t|] eqn:Htr.
    + rewrite (publish_open _ _ t) by done. unfold send_result.
      destruct (send_raises t _); [discriminate|]. by intros [= <- <-].
    + unfold publish. rewrite Ht. run. rewrite Htr. discriminate.
  - destruct (callable h) eqn:Hh;
      [|unfold subscribe; rewrite Hh; discriminate].
    destruct (is_string tp) eqn:Ht;
      [|unfold subscribe; rewrite Hh, Ht; discriminate].
    destruct (is_subscribe_options o) eqn:Ho;
      [|unfold subscribe; rewrite Hh, Ht, Ho; discriminate].
    destruct (_transport self) as [t|] eqn:Htr.
    + rewrite (subscribe_open _ _ t) by done. unfold send_result.
      destruct (send_raises t _); [discriminate|]. by intros [= <- <-].
    + unfold subscribe. rewrite Hh, Ht, Ho. run. rewrite Htr. discriminate.
  - destruct s as [| |sub| | | | | |]; try discriminate.
    destruct (_transport self) as [t|] eqn:Htr.
    + rewrite (unsubscribe_open _ _ t) by done. unfold send_result.
      destruct (send_raises t _); [discriminate|]. by intros [= <- <-].
    + unfold unsubscribe. run. rewrite Htr. discriminate.
Qed.

(** X23: the deferred that [publish], [subscribe] or [unsubscribe] returns
    is a new object: it was not in the heap before the call, it has not
    fired after it, and, every ledger entry holding an object of the heap,
    no request that was pending before the call holds it. *)
Theorem operation_returns_new_deferred (c : Call) (op : M Deferred)
  (self : WampProtocol) (w : World) (d : Deferred) (st' : State) :
  operation c = Some op →
  ledgers_allocated (self, w) →
  op (self, w) = (Ok d, st') →
  deferreds w !! d = None
  ∧ deferreds (snd st') !! d = Some DPending
  ∧ (∀ d', (d' < length (deferreds w))%nat →
           deferreds (snd st') !! d' = deferreds w !! d')
  ∧ unheld self d.
Proof.
  intros Hop (Hp & Hs & Hu) Hrun. simpl in Hp, Hs, Hu.
  destruct (operation_Ok _ _ _ _ _ _ Hop Hrun) as (-> & Hd & _ & _).
  rewrite Hd. unfold allocated. split; [|split; [|split]].
  - apply lookup_ge_None. lia.
  - apply lookup_allocated.
  - intros d' Hlt. by apply lookup_app_l.
  - repeat split.
    + intros R H'. apply Hp in H'. lia.
    + intros R h H'. apply Hs in H'. lia.
    + intros R s H'. apply Hu in H'. lia.
Qed.

Lemma operation_returns_new_deferred_witness :
  let st := snd (publish (PStr "com.example.topic") [] ∅ open0) in
  ∃ st',
    subscribe (PCallable 2) (PStr "com.example.topic") PNone st
    = (Ok 1%nat, st')
    ∧ deferreds (snd st') !! 1%nat = Some DPending
    ∧ unheld (fst st) 1%nat.
Proof.
  intros st. eexists. split; [reflexivity|].
  assert (ledgers_allocated (fst st, snd st)) as Hinv.
  { apply (ledgers_allocated_step plain_classes
             (CallPublish (PStr "com.example.topic") [] ∅)
             (step plain_classes (CallOnOpen good_transport)
                   (WampProtocol_init, world0))).
    apply ledgers_allocated_step, ledgers_allocated_init. }
  destruct (operation_returns_new_deferred
              (CallSubscribe (PCallable 2) (PStr "com.example.topic") PNone)
              _ (fst st) (snd st) 1%nat _ eq_refl Hinv eq_refl)
    as (_ & H2 & _ & H4).
  split; [exact H2 | exact H4].
Defined.

(** ** Deferreds that no ledger holds *)

Lemma unheld_not_held self d : unheld self d → ¬ held self d.
Proof.
  intros (Hp & Hs & Hu) [[R H]|[(R & h & H)|(R & s & H)]].
  - by apply (Hp R).
  - by apply (Hs R h).
  - by apply (Hu R s).
Qed.

(** The deferred a message fires is held by a ledger entry. *)
Lemma onMessage_fires_held classes (msg : message.Message)
  (self : WampProtocol) (w : World) :
  let w' := snd (snd (onMessage classes msg (self, w))) in
  deferreds w' = deferreds w
  ∨ ∃ d r, held self d ∧ deferreds w' = <[d := DCalled r]> (deferreds w).
Proof.
  destruct msg as [q p|q s|q|e| | | |]; unfold onMessage; run;
    try (by left).
  - destruct (_publish_reqs self !! q) as [d|] eqn:Hq; run; [|by left].
    destruct (deferreds w !! d) as [[|?]|]; simpl; [|by left..].
    right. exists d. eexists. split; [|done]. left. eauto.
  - destruct (_subscribe_reqs self !! q) as [[d h]|] eqn:Hq; run; [|by left].
    destruct (deferreds w !! d) as [[|?]|]; simpl; [|by left..].
    right. exists d. eexists. split; [|done]. right; left. eauto.
  - destruct (_unsubscribe_reqs self !! q) as [[d s]|] eqn:Hq; run;
      [|by left].
    case_bool_decide; run;
      (destruct (deferreds w !! d) as [[|?]|]; simpl; [|by left..]);
      right; exists d; eexists; (split; [|done]); right; right; eauto.
  - destruct (_publish_reqs self !! message.request e) as [d|] eqn:Hq; run.
    { rewrite exception_from_message_eq. run.
      destruct (deferreds w !! d) as [[|?]|]; simpl; [|by left..].
      right. exists d. eexists. split; [|done]. left. eauto. }
    destruct (_subscribe_reqs self !! message.request e) as [[d h]|] eqn:Hs;
      run.
    { rewrite exception_from_message_eq. run.
      destruct (deferreds w !! d) as [[|?]|]; simpl; [|by left..].
      right. exists d. eexists. split; [|done]. right; left. eauto. }
    destruct (_unsubscribe_reqs self !! message.request e) as [[d s]|];
      by left.
Qed.

Lemma onMessage_keeps_unheld classes (msg : message.Message)
  (self : WampProtocol) (w : World) (d : Deferred) :
  unheld self d →
  unheld (fst (snd (onMessage classes msg (self, w)))) d.
Proof.
  intros (Hp & Hs & Hu).
  destruct (onMessage_entries classes msg self w) as (Ep & Es & Eu & _).
  repeat split.
  - intros R H. by apply (Hp R), Ep.
  - intros R h H. by apply (Hs R h), Es.
  - intros R s H. by apply (Hu R s), Eu.
Qed.

Lemma orphan_step classes (c : Call) (st : State) (d : Deferred) :
  orphan st d → orphan (step classes c st) d.
Proof.
  destruct st as [self w]. intros [Hd Hun]. simpl in Hd, Hun.
  assert (d < length (deferreds w))%nat as Hlt by by apply lookup_lt_Some in Hd.
  assert (d ≠ allocated w) as Hne by (unfold allocated; lia).
  unfold orphan. destruct c as [t|msg| |tp a k|h tp o|s]; simpl.
  - done.
  - split; [|by apply onMessage_keeps_unheld].
    destruct (onMessage_fires_held classes msg self w)
      as [-> | (d0 & r & Hheld & ->)]; [done|].
    rewrite list_lookup_insert_ne; [done|].
    intros ->. by apply (unheld_not_held self d).
  - done.
  - destruct (publish_cases tp a k self w) as [-> | ->]; [done|]. simpl.
    split; [by apply lookup_app_l_Some|].
    destruct Hun as (Hp & Hs & Hu). repeat split; simpl; try done.
    intros R. rewrite lookup_insert. case_decide; [|done].
    intros [= E]. by apply Hne.
  - destruct (subscribe_cases h tp o self w) as [-> | [_ ->]]; [done|]. simpl.
    split; [by apply lookup_app_l_Some|].
    destruct Hun as (Hp & Hs & Hu). repeat split; simpl; try done.
    intros R h'. rewrite lookup_insert. case_decide; [|done].
    intros [= E _]. by apply Hne.
  - destruct (unsubscribe_cases s self w) as [-> | (sub & _ & ->)]; [done|].
    simpl. split; [by apply lookup_app_l_Some|].
    destruct Hun as (Hp & Hs & Hu). repeat split; simpl; try done.
    intros R s'. rewrite lookup_insert. case_decide; [|done].
    intros [= E _]. by apply Hne.
Qed.

(** X24: a deferred that has not fired and that no ledger entry holds is
    never fired: through any sequence of transport events, replies and
    operations it stays pending and stays out of every ledger. *)
Theorem orphan_stays_pending classes (cs : list Call) (st : State)
  (d : Deferred) :
  orphan st d →
  orphan (run_calls classes cs st) d.
Proof.
  apply (run_calls_ind classes (λ st, orphan st d)).
  intros c st'. apply orphan_step.
Qed.

Lemma orphan_witness_state :
  orphan (snd (publish (PStr "com.example.b") [] ∅
                 (snd (publish (PStr "com.example.a") [] ∅
                         (set_transport (Some good_transport)
                            WampProtocol_init, world_same_id)))))
         0%nat.
Proof.
  rewrite (publish_open _ _ good_transport) by done. cbn [snd].
  rewrite (publish_open _ _ good_transport) by done. cbn [snd].
  split; [done|]. unfold drawn, allocated. simpl.
  repeat split; simpl; intros R; intros; try (by rewrite lookup_empty).
  rewrite lookup_insert. case_decide; [done|].
  rewrite lookup_insert. case_decide; [done|]. by rewrite lookup_empty.
Qed.

Lemma orphan_stays_pending_witness :
  deferreds
    (snd (run_calls plain_classes
            [CallOnMessage (message.Published 7 100);
             CallOnMessage
               (message.IsError (message.mkError 7 "com.example.x" None None));
             CallOnClose]
            (snd (publish (PStr "com.example.b") [] ∅
                    (snd (publish (PStr "com.example.a") [] ∅
                            (set_transport (Some good_transport)
                               WampProtocol_init, world_same_id)))))))
    !! 0%nat
  = Some DPending.
Proof.
  apply (orphan_stays_pending plain_classes
           [CallOnMessage (message.Published 7 100);
            CallOnMessage
              (message.IsError (message.mkError 7 "com.example.x" None None));
            CallOnClose] _ 0%nat orphan_witness_state).
Defined.

(** X25: the operations do not check the id they draw. When [util.id]
    returns for a second [publish] the id it returned for the first, the
    second entry replaces the first in the Publish ledger, and the
    deferred of the first request is held by no ledger any more: whatever
    replies and calls follow, it never fires. *)
Theorem repeated_id_orphans_request classes (self : WampProtocol) (w : World)
  (transport : Transport) (topic topic' : PyVal) (args args' : list PyVal)
  (kwargs kwargs' : gmap string PyVal) (cs : list Call) :
  ledgers_allocated (self, w) →
  _transport self = Some transport →
  is_string topic = true →
  is_string topic' = true →
  id_source w (S (id_count w)) = id_source w (id_count w) →
  let st2 := snd (publish topic' args' kwargs'
                    (snd (publish topic args kwargs (self, w)))) in
  _publish_reqs (fst st2) !! drawn w = Some (S (allocated w))
  ∧ unheld (fst st2) (allocated w)
  ∧ deferreds (snd (run_calls classes cs st2)) !! allocated w = Some DPending.
Proof.
  intros (Hp & Hs & Hu) Htr Ht Ht' Hid st2. simpl in Hp, Hs, Hu.
  assert (orphan st2 (allocated w)
          ∧ _publish_reqs (fst st2) !! drawn w = Some (S (allocated w)))
    as [Horph Hreq].
  { subst st2.
    rewrite (publish_open _ _ transport) by done. cbn [snd].
    rewrite (publish_open _ _ transport) by done. cbn [snd fst].
    assert (drawn (after_send (publish_msg (drawn w) topic args kwargs) w)
            = drawn w) as -> by (unfold drawn; simpl; done).
    assert (allocated (after_send (publish_msg (drawn w) topic args kwargs) w)
            = S (allocated w)) as ->
      by (unfold allocated; simpl; rewrite length_app; simpl; lia).
    split; [|apply lookup_insert_eq].
    split; simpl.
    - apply lookup_app_l_Some, lookup_allocated.
    - repeat split; simpl.
      + intros R. rewrite lookup_insert. case_decide.
        * intros [= E]. lia.
        * rewrite lookup_insert. case_decide; [done|].
          intros H'. apply Hp in H'. unfold allocated in H'. lia.
      + intros R h H'. apply Hs in H'. unfold allocated in H'. lia.
      + intros R s H'. apply Hu in H'. unfold allocated in H'. lia. }
  split; [done|]. split; [apply Horph|].
  apply (run_calls_ind classes (λ st, orphan st (allocated w))); [|done].
  intros c st'. apply orphan_step.
Qed.

Lemma repeated_id_orphans_request_witness :
  let st2 := snd (publish (PStr "com.example.b") [] ∅
                    (snd (publish (PStr "com.example.a") [] ∅
                            (set_transport (Some good_transport)
                               WampProtocol_init, world_same_id)))) in
  _publish_reqs (fst st2) !! 7 = Some 1%nat
  ∧ deferreds (snd (run_calls plain_classes
                      [CallOnMessage (message.Published 7 100)] st2))
      !! 0%nat = Some DPending.
Proof.
  intros st2.
  destruct (repeated_id_orphans_request plain_classes
              (set_transport (Some good_transport) WampProtocol_init)
              world_same_id good_transport
              (PStr "com.example.a") (PStr "com.example.b") [] [] ∅ ∅
              [CallOnMessage (message.Published 7 100)]
              (ledgers_allocated_init world_same_id)
              eq_refl eq_refl eq_refl eq_refl) as (H1 & _ & H3).
  split; [exact H1 | exact H3].
Defined.

(** ** The table is updated before the deferred fires *)

(** X26: a Subscribed reply for a request of the Subscribe ledger maps the
    subscription id to the handler of the entry, replacing a handler
    already there, and an Unsubscribed reply for a request of the
    Unsubscribe ledger removes the subscription id of the entry; both do
    so before the callback, hence also when the deferred had fired and
    [onMessage] raises AlreadyCalledError. Every other subscription id
    keeps its handler. *)
Theorem subscription_update_precedes_callback classes (self : WampProtocol)
  (w : World) (R S : Z) (d : Deferred) :
  (∀ h, _subscribe_reqs self !! R = Some (d, h) →
        fst (snd (onMessage classes (message.Subscribed R S) (self, w)))
        = set_subscriptions (<[S := h]>) self
        ∧ fst (onMessage classes (message.Subscribed R S) (self, w))
          = match deferreds w !! d with
            | Some DPending => Ok true
            | _ => Raise AlreadyCalledError
            end)
  ∧ (_unsubscribe_reqs self !! R = Some (d, S) →
     _subscriptions
       (fst (snd (onMessage classes (message.Unsubscribed R) (self, w))))
     = delete S (_subscriptions self)
     ∧ fst (onMessage classes (message.Unsubscribed R) (self, w))
       = match deferreds w !! d with
         | Some DPending => Ok true
         | _ => Raise AlreadyCalledError
         end).
Proof.
  split.
  - intros h Hq. unfold onMessage. run. rewrite Hq. run.
    by destruct (deferreds w !! d) as [[|?]|].
  - intros Hq. unfold onMessage. run. rewrite Hq. run.
    case_bool_decide as Hin; run.
    + by destruct (deferreds w !! d) as [[|?]|].
    + apply not_is_Some_None in Hin. rewrite (delete_id _ _ Hin).
      by destruct (deferreds w !! d) as [[|?]|].
Qed.

Lemma subscription_update_precedes_callback_witness :
  let st := snd (onMessage plain_classes (message.Subscribed 7 40)
                   (snd (subscribe (PCallable 3) (PStr "com.example.topic")
                           PNone open0))) in
  _subscriptions
    (fst (snd (onMessage plain_classes (message.Subscribed 7 41) st)))
  = <[41 := PCallable 3]> (_subscriptions (fst st))
  ∧ fst (onMessage plain_classes (message.Subscribed 7 41) st)
    = Raise AlreadyCalledError.
Proof.
  intros st.
  destruct (proj1 (subscription_update_precedes_callback plain_classes
                     (fst st) (snd st) 7 41 0%nat) (PCallable 3) eq_refl)
    as [H1 H2].
  split; [exact (f_equal _subscriptions H1) | exact H2].
Defined.

(** ** Opening a session *)

(** X27: [onOpen] attaches the transport it is given whatever was attached
    before, and keeps the ledgers: a [publish] that follows hands its
    message to the [send] of that transport, and the requests that were
    pending under other ids are still in the Publish ledger. *)
Theorem onOpen_then_publish (st : State) (transport : Transport)
  (topic : PyVal) (args : list PyVal) (kwargs : gmap string PyVal) :
  is_string topic = true →
  ∃ st',
    publish topic args kwargs (snd (onOpen transport st))
    = (send_result transport
         (publish_msg (drawn (snd st)) topic args kwargs)
         (allocated (snd st)), st')
    ∧ _transport (fst st') = Some transport
    ∧ _publish_reqs (fst st') !! drawn (snd st) = Some (allocated (snd st))
    ∧ (∀ R, R ≠ drawn (snd st) →
            _publish_reqs (fst st') !! R = _publish_reqs (fst st) !! R)
    ∧ _subscribe_reqs (fst st') = _subscribe_reqs (fst st)
    ∧ _unsubscribe_reqs (fst st') = _unsubscribe_reqs (fst st)
    ∧ _subscriptions (fst st') = _subscriptions (fst st)
    ∧ trace (snd st')
      = trace (snd st)
        ++ [EvSend (publish_msg (drawn (snd st)) topic args kwargs)].
Proof.
  intros Ht. destruct st as [self w]. eexists. split.
  - unfold onOpen. run. by apply (publish_open _ _ transport).
  - simpl. split; [done|]. split; [apply lookup_insert_eq|].
    split; [|done]. intros R HR. by apply lookup_insert_ne.
Qed.

Lemma onOpen_then_publish_witness :
  ∃ st',
    publish (PStr "com.example.topic") [] ∅
      (snd (onOpen bad_transport (snd (onClose open0))))
    = (Raise (SendError "connection lost"), st')
    ∧ _transport (fst st') = Some bad_transport
    ∧ _publish_reqs (fst st') !! 7 = Some 0%nat.
Proof.
  destruct (onOpen_then_publish (snd (onClose open0)) bad_transport
              (PStr "com.example.topic") [] ∅ eq_refl)
    as (st' & H1 & H2 & H3 & _).
  exists st'. split; [exact H1|]. split; [exact H2 | exact H3].
Defined.
